(** * LIT game socket server: the in-memory room state machine

    A shallow embedding of [socket-server.js]: the helper functions
    ([createAndShuffleDeck], [isValidRequest], [transferCard],
    [teamHasCompleteSet], [checkWinCondition], [getNextPlayer]) and the
    socket event handlers ([createRoom], [joinRoom], [joinTeam],
    [startGame], [requestCard], [declareSet], [claimTurn]) acting on the
    [gameRooms] map.

    Conventions.
    - JS strings are [string]; [a === b] on strings is [bool_decide (a = b)].
    - A property that an object may lack is an [option], [None] for the
      absent property ([undefined]).  The handlers compare such a property
      only with a string or a number, or test its truthiness.  For
      [team], [lastAction] and [currentTurn], which [createRoom] sets to
      [null], [None] is [null]; payload fields are strings, or [null] for a
      team.
    - Arrays are lists; [find]/[findIndex] are stdpp's [list_find] (first
      match); an object mutated in place is replaced at its index.
    - [gameRooms] (a JS [Map] keyed by room name) is a [gmap string Room.t];
      a handler takes the map and returns the new map with what it sent.
    - Logging, [socket.join] and the [disconnect] handler (which changes
      nothing) are left out; so is what becomes of the process after a
      handler throws. *)

From stdpp Require Import base option list strings gmap.

Open Scope string_scope.
Open Scope nat_scope.
Open Scope list_scope.

(** ** Cards and the deck *)

Record Card := mkCard { suit : string; rank : string; setType : string }.

Global Instance Card_eq_dec : EqDecision Card.
Proof. solve_decision. Defined.

Definition suits : list string := ["hearts"; "diamonds"; "clubs"; "spades"].
Definition lowerRanks : list string := ["ace"; "2"; "3"; "4"; "5"; "6"].
Definition upperRanks : list string := ["8"; "9"; "10"; "jack"; "queen"; "king"].

(** [suits.forEach(suit => ranks.forEach(rank => deck.push({suit, rank, setType})))] *)
Definition pushSets (ranks : list string) (st : string) : list Card :=
  concat (map (λ s, map (λ r, mkCard s r st) ranks) suits).

(** The deck of [createAndShuffleDeck] before its shuffle loop: the four
    lower sets, then the four upper sets. *)
Definition orderedDeck : list Card :=
  pushSets lowerRanks "lower" ++ pushSets upperRanks "upper".

(** One result of [Math.random()]: a fraction [u_num / u_den] in [0, 1).
    The draw is exact; the rounding of the floating-point product in
    [Math.random() * (i + 1)] is not modelled. *)
Record Unit01 := mkUnit01 {
  u_num : nat;
  u_den : nat;
  u_lt : (u_num <? u_den) = true
}.

(** [Math.floor(u * n)] *)
Definition floorTimes (u : Unit01) (n : nat) : nat := (u_num u * n) / u_den u.

(** [[deck[i], deck[j]] = [deck[j], deck[i]]].  Both indices are inside
    the array whenever the loop runs ([j <= i < deck.length], see
    [floorTimes_lt]); the last branch is never taken there. *)
Definition swap (i j : nat) (deck : list Card) : list Card :=
  match deck !! j, deck !! i with
  | Some dj, Some di => <[j := di]> (<[i := dj]> deck)
  | _, _ => deck
  end.

(** [for (let i = deck.length - 1; i > 0; i--) { j = floor(random() * (i + 1)); swap }];
    [calls] counts the draws already taken from the random source. *)
Fixpoint shuffleLoop (random : nat → Unit01) (calls i : nat) (deck : list Card)
  : list Card :=
  match i with
  | 0 => deck
  | S i' =>
      let j := floorTimes (random calls) (i + 1) in
      shuffleLoop random (S calls) i' (swap i j deck)
  end.

Definition createAndShuffleDeck (random : nat → Unit01) : list Card :=
  shuffleLoop random 0 (length orderedDeck - 1) orderedDeck.

Arguments createAndShuffleDeck : simpl never.

(** The deck as the specification describes it: 4 suits, each with the
    set types lower and upper, each set with its 6 ranks (suit-major,
    set-type-major, rank-major). *)
Definition specRanks (st : string) : list string :=
  if bool_decide (st = "lower") then lowerRanks else upperRanks.

Definition specDeck : list Card :=
  s ← suits; st ← ["lower"; "upper"]; r ← specRanks st; [mkCard s r st].

(** ** Players, captured sets and rooms *)

Module Player.
(** The host object of [createRoom] has [id], [name], [socketId], [team: null],
    [hand], [isHost]; the object of [joinRoom] has [id], [name], [hand],
    [team: 'unassigned'], [connected], [canClaimTurn]. *)
Record t := mk {
  id : string;
  name : string;
  socketId : option string;
  team : option string;
  hand : list Card;
  isHost : option bool;
  connected : option bool;
  canClaimTurn : option bool
}.

Definition setHand (p : t) (h : list Card) : t :=
  mk (id p) (name p) (socketId p) (team p) h (isHost p) (connected p) (canClaimTurn p).
Definition setTeam (p : t) (tm : option string) : t :=
  mk (id p) (name p) (socketId p) tm (hand p) (isHost p) (connected p) (canClaimTurn p).
Definition setCanClaimTurn (p : t) (b : option bool) : t :=
  mk (id p) (name p) (socketId p) (team p) (hand p) (isHost p) (connected p) b.
End Player.

Module CapturedSet.
Record t := mk { team : option string; suit : string; setType : string }.
End CapturedSet.

(** The value of [room.capturedSets]: the object [{A: [], B: []}] that
    [createRoom] stores, or an array of entries (what [declareSet] pushes
    to and [checkWinCondition] filters). *)
Inductive CapturedSets :=
  | CapByTeam (A B : list CapturedSet.t)
  | CapArray (entries : list CapturedSet.t).

Module Room.
(** The first nine fields are the ones [createRoom] writes.  The last
    five are read or written only by the other handlers and are absent
    on a room fresh from [createRoom]. *)
Record t := mk {
  name : string;
  players : list Player.t;
  maxPlayers : option nat;
  status : string;
  teams : list string * list string;
  currentTurn : option string;
  deck : list Card;
  capturedSets : CapturedSets;
  lastAction : option string;
  playerCount : option nat;
  adminId : option string;
  currentTurnPlayerId : option string;
  gameStatus : option string;
  winner : option string
}.

Definition setPlayers (r : t) (ps : list Player.t) : t :=
  mk (name r) ps (maxPlayers r) (status r) (teams r) (currentTurn r) (deck r)
     (capturedSets r) (lastAction r) (playerCount r) (adminId r)
     (currentTurnPlayerId r) (gameStatus r) (winner r).
Definition setCapturedSets (r : t) (cs : CapturedSets) : t :=
  mk (name r) (players r) (maxPlayers r) (status r) (teams r) (currentTurn r) (deck r)
     cs (lastAction r) (playerCount r) (adminId r)
     (currentTurnPlayerId r) (gameStatus r) (winner r).
Definition setLastAction (r : t) (a : option string) : t :=
  mk (name r) (players r) (maxPlayers r) (status r) (teams r) (currentTurn r) (deck r)
     (capturedSets r) a (playerCount r) (adminId r)
     (currentTurnPlayerId r) (gameStatus r) (winner r).
Definition setCurrentTurnPlayerId (r : t) (p : option string) : t :=
  mk (name r) (players r) (maxPlayers r) (status r) (teams r) (currentTurn r) (deck r)
     (capturedSets r) (lastAction r) (playerCount r) (adminId r)
     p (gameStatus r) (winner r).
Definition setGameStatus (r : t) (s : option string) : t :=
  mk (name r) (players r) (maxPlayers r) (status r) (teams r) (currentTurn r) (deck r)
     (capturedSets r) (lastAction r) (playerCount r) (adminId r)
     (currentTurnPlayerId r) s (winner r).
Definition setWinner (r : t) (w : option string) : t :=
  mk (name r) (players r) (maxPlayers r) (status r) (teams r) (currentTurn r) (deck r)
     (capturedSets r) (lastAction r) (playerCount r) (adminId r)
     (currentTurnPlayerId r) (gameStatus r) w.
End Room.

Global Instance Player_eq_dec : EqDecision Player.t.
Proof. solve_decision. Defined.
Global Instance CapturedSet_eq_dec : EqDecision CapturedSet.t.
Proof. solve_decision. Defined.
Global Instance CapturedSets_eq_dec : EqDecision CapturedSets.
Proof. solve_decision. Defined.
Global Instance Room_eq_dec : EqDecision Room.t.
Proof. solve_decision. Defined.

(** ** Helper functions of the server *)

(** [card.suit === suit && card.rank === rank && card.setType === setType] *)
Definition isCard (s r st : string) (c : Card) : Prop :=
  suit c = s ∧ rank c = r ∧ setType c = st.

Global Instance isCard_dec s r st c : Decision (isCard s r st c).
Proof. unfold isCard. apply _. Defined.

(** [card.suit === suit && card.setType === setType] *)
Definition inSet (s st : string) (c : Card) : Prop :=
  suit c = s ∧ setType c = st.

Global Instance inSet_dec s st c : Decision (inSet s st c).
Proof. unfold inSet. apply _. Defined.

(** [hand.some(pred)] *)
Definition some {A} (P : A → Prop) `{∀ x, Decision (P x)} (l : list A) : bool :=
  bool_decide (Exists P l).

(** [ranks.every(pred)] *)
Definition every {A} (P : A → Prop) `{∀ x, Decision (P x)} (l : list A) : bool :=
  bool_decide (Forall P l).

Definition hasId (i : string) (p : Player.t) : Prop := Player.id p = i.
Global Instance hasId_dec i p : Decision (hasId i p).
Proof. unfold hasId. apply _. Defined.

Definition isValidRequest (requestingPlayer targetPlayer : Player.t)
    (requestedCard : Card) : bool :=
  if bool_decide (Player.id requestingPlayer = Player.id targetPlayer) then false
  else if bool_decide (Player.team requestingPlayer = Player.team targetPlayer) then false
  else if bool_decide (length (Player.hand requestingPlayer) = 0) then false
  else if bool_decide (length (Player.hand targetPlayer) = 0) then false
  else if negb (some (inSet (suit requestedCard) (setType requestedCard))
                     (Player.hand requestingPlayer)) then false
  else if some (isCard (suit requestedCard) (rank requestedCard) (setType requestedCard))
               (Player.hand requestingPlayer) then false
  else true.

(** Returns the function's boolean together with the two players after
    the in-place [splice] and [push] on their hands. *)
Definition transferCard (fromPlayer toPlayer : Player.t) (s r st : string)
  : bool * Player.t * Player.t :=
  match list_find (isCard s r st) (Player.hand fromPlayer) with
  | None => (false, fromPlayer, toPlayer)
  | Some (cardIndex, card) =>
      (true,
       Player.setHand fromPlayer (delete cardIndex (Player.hand fromPlayer)),
       Player.setHand toPlayer (Player.hand toPlayer ++ [card]))
  end.

Definition onTeam (tm : option string) (p : Player.t) : Prop := Player.team p = tm.
Global Instance onTeam_dec tm p : Decision (onTeam tm p).
Proof. unfold onTeam. apply _. Defined.

Definition teamHasCompleteSet (players : list Player.t) (tm : option string)
    (s st : string) : bool :=
  let teamPlayers := filter (onTeam tm) players in
  let teamCards := concat (map Player.hand teamPlayers) in
  let ranks := if bool_decide (st = "lower") then lowerRanks else upperRanks in
  every (λ r, Exists (isCard s r st) teamCards) ranks.

Definition capturedBy (tm : string) (e : CapturedSet.t) : Prop :=
  CapturedSet.team e = Some tm.
Global Instance capturedBy_dec tm e : Decision (capturedBy tm e).
Proof. unfold capturedBy. apply _. Defined.

Definition checkWinCondition (capturedSets : list CapturedSet.t) : option string :=
  let redSets := length (filter (capturedBy "red") capturedSets) in
  let blueSets := length (filter (capturedBy "blue") capturedSets) in
  if (3 <=? redSets) && (blueSets <? redSets) then Some "red"
  else if (3 <=? blueSets) && (redSets <? blueSets) then Some "blue"
  else if (3 <=? redSets) && (3 <=? blueSets) && (redSets =? blueSets) then Some "draw"
  else None.

(** [players[nextIndex]]; [findIndex] gives [-1] when nobody has the id,
    which makes [nextIndex] zero.  [None] is [undefined]. *)
Definition getNextPlayer (currentPlayerId : string) (players : list Player.t)
  : option Player.t :=
  let nextIndex :=
    match list_find (hasId currentPlayerId) players with
    | Some (currentIndex, _) => (currentIndex + 1) mod length players
    | None => 0
    end in
  players !! nextIndex.

(** ** Socket event handlers *)

(** What a handler sends: one of the server's events, or the [TypeError]
    it dies with. *)
Inductive Outcome :=
  | roomCreated (roomName playerId : string)
  | joinedRoom (roomName playerId : string)
  | roomUpdate (room : Room.t)
  | gameStarted (room : Room.t)
  | gameUpdate (room : Room.t)
  | error (message : string)
  | errorCreateRoom (message : string)
  | throwsTypeError.

(** The messages of the [error] event, under the names of the error kinds. *)
Definition RoomNotFound := "Room not found".
Definition PlayerNotFound := "Player not found".
Definition RoomFull := "Room is full".
Definition OnlyAdmin := "Only the admin can start the game".
Definition RoomNotFull := "Room is not full".
Definition TeamsUnbalanced := "Teams must be balanced".
Definition NotYourTurn := "Not your turn".
Definition InvalidRequest := "Invalid card request".
Definition CannotClaimTurn := "You cannot claim the turn".

(** What a handler body does to the room it found: mutate it and go on
    to emit, reject the action with an [error] message, or throw (the
    room is given as it is at the throw). *)
Inductive Step :=
  | Updated (room : Room.t)
  | Rejected (message : string)
  | Threw (room : Room.t).

(** [const room = gameRooms.get(roomName); if (!room) { emit error; return }],
    then the body on the room object, which lives in the map. *)
Definition withRoom (body : Room.t → Step) (emit : Room.t → Outcome)
    (roomName : string) (gameRooms : gmap string Room.t)
  : gmap string Room.t * Outcome :=
  match gameRooms !! roomName with
  | None => (gameRooms, error RoomNotFound)
  | Some room =>
      match body room with
      | Updated room' => (<[roomName := room']> gameRooms, emit room')
      | Rejected message => (gameRooms, error message)
      | Threw room' => (<[roomName := room']> gameRooms, throwsTypeError)
      end
  end.

(** [socket.on('createRoom')]; [playerCount] is [data.playerCount]. *)
Definition newRoom (socketId playerName roomName : string) (playerCount : option nat)
  : Room.t :=
  Room.mk roomName
    [Player.mk socketId playerName (Some socketId) None [] (Some true) None None]
    playerCount "waiting" ([], []) None [] (CapByTeam [] []) None
    None None None None None.

Definition createRoom (socketId playerName roomName : string)
    (playerCount : option nat) (gameRooms : gmap string Room.t)
  : gmap string Room.t * Outcome :=
  if bool_decide (playerName = "") || bool_decide (roomName = "") then
    (gameRooms, errorCreateRoom "Player name and room name are required")
  else if bool_decide (is_Some (gameRooms !! roomName)) then
    (gameRooms, errorCreateRoom "Room already exists")
  else
    (<[roomName := newRoom socketId playerName roomName playerCount]> gameRooms,
     roomCreated roomName socketId).

(** [room.players.length >= room.playerCount]: false when [playerCount]
    is absent (a comparison with [undefined]). *)
Definition lengthAtLeast (n : nat) (playerCount : option nat) : bool :=
  match playerCount with
  | Some c => c <=? n
  | None => false
  end.

Definition joinRoomBody (socketId playerName : string) (room : Room.t) : Step :=
  if lengthAtLeast (length (Room.players room)) (Room.playerCount room) then
    Rejected RoomFull
  else
    let player :=
      Player.mk socketId playerName None (Some "unassigned") [] None (Some true) (Some false) in
    Updated (Room.setPlayers room (Room.players room ++ [player])).

Definition joinRoom (socketId playerName roomName : string)
    (gameRooms : gmap string Room.t) : gmap string Room.t * Outcome :=
  withRoom (joinRoomBody socketId playerName) (λ _, joinedRoom roomName socketId)
    roomName gameRooms.

(** [socket.on('joinTeam')]: [player] is the first player with the
    socket's id; its [team] is overwritten in place. *)
Definition joinTeamBody (socketId : string) (tm : option string) (room : Room.t) : Step :=
  match list_find (hasId socketId) (Room.players room) with
  | None => Rejected PlayerNotFound
  | Some (i, player) =>
      Updated (Room.setPlayers room (<[i := Player.setTeam player tm]> (Room.players room)))
  end.

Definition joinTeam (socketId roomName : string) (tm : option string)
    (gameRooms : gmap string Room.t) : gmap string Room.t * Outcome :=
  withRoom (joinTeamBody socketId tm) roomUpdate roomName gameRooms.

(** [room.players.forEach(player => { player.hand = deck.splice(0, 6); })] *)
Fixpoint dealHands (players : list Player.t) (deck : list Card) : list Player.t :=
  match players with
  | [] => []
  | player :: rest =>
      Player.setHand player (take 6 deck) :: dealHands rest (drop 6 deck)
  end.

Definition startGameBody (random : nat → Unit01) (socketId : string) (room : Room.t)
  : Step :=
  if negb (bool_decide (Some socketId = Room.adminId room)) then Rejected OnlyAdmin
  else if negb (bool_decide (Some (length (Room.players room)) = Room.playerCount room))
  then Rejected RoomNotFull
  else
    let redTeam := filter (onTeam (Some "red")) (Room.players room) in
    let blueTeam := filter (onTeam (Some "blue")) (Room.players room) in
    if negb (bool_decide (length redTeam = length blueTeam)) then Rejected TeamsUnbalanced
    else
      let deck := createAndShuffleDeck random in
      let room1 := Room.setPlayers room (dealHands (Room.players room) deck) in
      match Room.players room1 !! 0 with
      | None => Threw room1
      | Some first =>
          let room2 := Room.setCurrentTurnPlayerId room1 (Some (Player.id first)) in
          Updated (Room.setGameStatus room2 (Some "playing"))
      end.

Definition startGame (random : nat → Unit01) (socketId roomName : string)
    (gameRooms : gmap string Room.t) : gmap string Room.t * Outcome :=
  withRoom (startGameBody random socketId) gameStarted roomName gameRooms.

Definition requestCardBody (socketId targetPlayerId s r st : string) (room : Room.t)
  : Step :=
  match list_find (hasId socketId) (Room.players room),
        list_find (hasId targetPlayerId) (Room.players room) with
  | Some (ri, requestingPlayer), Some (ti, targetPlayer) =>
      if negb (bool_decide (Some (Player.id requestingPlayer) = Room.currentTurnPlayerId room))
      then Rejected NotYourTurn
      else if negb (isValidRequest requestingPlayer targetPlayer (mkCard s r st))
      then Rejected InvalidRequest
      else
        let hasCard := some (isCard s r st) (Player.hand targetPlayer) in
        let room1 :=
          if hasCard then
            let '(_, targetPlayer', requestingPlayer') :=
              transferCard targetPlayer requestingPlayer s r st in
            let players' :=
              <[ri := requestingPlayer']> (<[ti := targetPlayer']> (Room.players room)) in
            Room.setLastAction (Room.setPlayers room players')
              (Some (Player.name requestingPlayer +:+ " got the " +:+ r +:+ " of " +:+ s
                     +:+ " from " +:+ Player.name targetPlayer))
          else
            Room.setLastAction room
              (Some (Player.name requestingPlayer +:+ " asked " +:+ Player.name targetPlayer
                     +:+ " for the " +:+ r +:+ " of " +:+ s
                     +:+ " but they didn't have it")) in
        Updated (Room.setCurrentTurnPlayerId room1 (Some (Player.id targetPlayer)))
  | _, _ => Rejected PlayerNotFound
  end.

Definition requestCard (socketId roomName targetPlayerId s r st : string)
    (gameRooms : gmap string Room.t) : gmap string Room.t * Outcome :=
  withRoom (requestCardBody socketId targetPlayerId s r st) gameUpdate roomName gameRooms.

(** [declaringPlayer.team === 'red' ? 'blue' : 'red'] *)
Definition opposingTeam (tm : option string) : string :=
  if bool_decide (tm = Some "red") then "blue" else "red".

(** The string a team value prints as inside a template literal. *)
Definition showTeam (tm : option string) : string :=
  match tm with
  | Some s => s
  | None => "null"
  end.

(** [room.capturedSets.push(entry)] needs an array: on the object
    [{A: [], B: []}] there is no [push] and the call is a [TypeError],
    thrown before anything is written. *)
Definition declareSetBody (socketId s st : string) (room : Room.t) : Step :=
  match list_find (hasId socketId) (Room.players room) with
  | None => Rejected PlayerNotFound
  | Some (_, declaringPlayer) =>
      if negb (bool_decide (Some (Player.id declaringPlayer) = Room.currentTurnPlayerId room))
      then Rejected NotYourTurn
      else
        let isCorrect :=
          teamHasCompleteSet (Room.players room) (Player.team declaringPlayer) s st in
        let entryTeam :=
          if isCorrect then Player.team declaringPlayer
          else Some (opposingTeam (Player.team declaringPlayer)) in
        let message :=
          if isCorrect then
            Player.name declaringPlayer +:+ " correctly declared the " +:+ st +:+ " " +:+ s
            +:+ " set for the " +:+ showTeam (Player.team declaringPlayer) +:+ " team"
          else
            Player.name declaringPlayer +:+ " incorrectly declared the " +:+ st +:+ " " +:+ s
            +:+ " set, giving it to the " +:+ opposingTeam (Player.team declaringPlayer)
            +:+ " team" in
        match Room.capturedSets room with
        | CapByTeam _ _ => Threw room
        | CapArray entries =>
            let entries' := entries ++ [CapturedSet.mk entryTeam s st] in
            let room1 :=
              Room.setLastAction (Room.setCapturedSets room (CapArray entries'))
                (Some message) in
            match checkWinCondition entries' with
            | Some winner =>
                Updated (Room.setWinner (Room.setGameStatus room1 (Some "finished"))
                           (Some winner))
            | None =>
                match getNextPlayer (Player.id declaringPlayer) (Room.players room) with
                | Some next =>
                    Updated (Room.setCurrentTurnPlayerId room1 (Some (Player.id next)))
                | None => Threw room1
                end
            end
        end
  end.

Definition declareSet (socketId roomName s st : string)
    (gameRooms : gmap string Room.t) : gmap string Room.t * Outcome :=
  withRoom (declareSetBody socketId s st) gameUpdate roomName gameRooms.

(** [!player.canClaimTurn]: an absent flag is falsy. *)
Definition truthy (b : option bool) : bool :=
  match b with
  | Some true => true
  | _ => false
  end.

Definition claimTurnBody (socketId : string) (room : Room.t) : Step :=
  match list_find (hasId socketId) (Room.players room) with
  | None => Rejected PlayerNotFound
  | Some (i, player) =>
      if negb (truthy (Player.canClaimTurn player)) then Rejected CannotClaimTurn
      else
        let players' :=
          <[i := Player.setCanClaimTurn player (Some false)]> (Room.players room) in
        Updated (Room.setCurrentTurnPlayerId (Room.setPlayers room players')
                   (Some (Player.id player)))
  end.

Definition claimTurn (socketId roomName : string)
    (gameRooms : gmap string Room.t) : gmap string Room.t * Outcome :=
  withRoom (claimTurnBody socketId) gameUpdate roomName gameRooms.

(** All cards held in the room, hand after hand in join order. *)
Definition allHands (room : Room.t) : list Card :=
  concat (Player.hand <$> Room.players room).

(** ** Results of [requestCard], named *)

Definition gotMessage (requester target : Player.t) (s r : string) : string :=
  Player.name requester +:+ " got the " +:+ r +:+ " of " +:+ s
  +:+ " from " +:+ Player.name target.

Definition missedMessage (requester target : Player.t) (s r : string) : string :=
  Player.name requester +:+ " asked " +:+ Player.name target
  +:+ " for the " +:+ r +:+ " of " +:+ s +:+ " but they didn't have it".

(** The room after a successful request in which the target's hand has
    the card at index [k]. *)
Definition afterTransfer (room : Room.t) (ri ti k : nat)
    (requester target : Player.t) (card : Card) (s r : string) : Room.t :=
  Room.setCurrentTurnPlayerId
    (Room.setLastAction
       (Room.setPlayers room
          (<[ri := Player.setHand requester (Player.hand requester ++ [card])]>
             (<[ti := Player.setHand target (delete k (Player.hand target))]>
                (Room.players room))))
       (Some (gotMessage requester target s r)))
    (Some (Player.id target)).

(** The room after a successful request for a card the target lacks. *)
Definition afterMiss (room : Room.t) (requester target : Player.t) (s r : string)
  : Room.t :=
  Room.setCurrentTurnPlayerId
    (Room.setLastAction room (Some (missedMessage requester target s r)))
    (Some (Player.id target)).

(** ** The server as a transition system *)

(** One inbound event, with the id of the socket it arrives on.  The
    random source of [startGame] is what [Math.random] returns during
    that call. *)
Inductive Action :=
  | ActCreateRoom (socketId playerName roomName : string) (playerCount : option nat)
  | ActJoinRoom (socketId playerName roomName : string)
  | ActJoinTeam (socketId roomName : string) (tm : option string)
  | ActStartGame (random : nat → Unit01) (socketId roomName : string)
  | ActRequestCard (socketId roomName targetPlayerId s r st : string)
  | ActDeclareSet (socketId roomName s st : string)
  | ActClaimTurn (socketId roomName : string).

Definition handle (a : Action) (gameRooms : gmap string Room.t)
  : gmap string Room.t * Outcome :=
  match a with
  | ActCreateRoom sid pn rn pc => createRoom sid pn rn pc gameRooms
  | ActJoinRoom sid pn rn => joinRoom sid pn rn gameRooms
  | ActJoinTeam sid rn tm => joinTeam sid rn tm gameRooms
  | ActStartGame random sid rn => startGame random sid rn gameRooms
  | ActRequestCard sid rn target s r st => requestCard sid rn target s r st gameRooms
  | ActDeclareSet sid rn s st => declareSet sid rn s st gameRooms
  | ActClaimTurn sid rn => claimTurn sid rn gameRooms
  end.

(** The rooms after a sequence of events, handled one at a time. *)
Definition serve (actions : list Action) (gameRooms : gmap string Room.t)
  : gmap string Room.t :=
  foldl (λ rooms a, (handle a rooms).1) gameRooms actions.

Definition isRequestCard (a : Action) : Prop :=
  match a with
  | ActRequestCard _ _ _ _ _ _ => True
  | _ => False
  end.

(** What every room that started in [createRoom] looks like, whatever
    happened to it since: the fields the later handlers rely on were never
    written, and no player may claim the turn. *)
Record AsCreated (room : Room.t) : Prop := {
  created_playerCount : Room.playerCount room = None;
  created_adminId : Room.adminId room = None;
  created_turn : Room.currentTurnPlayerId room = None;
  created_gameStatus : Room.gameStatus room = None;
  created_winner : Room.winner room = None;
  created_capturedSets : Room.capturedSets room = CapByTeam [] [];
  created_status : Room.status room = "waiting";
  created_noClaim : Forall (λ p, truthy (Player.canClaimTurn p) = false) (Room.players room)
}.

(** The handler body an event runs on the room it names; [createRoom]
    has none, it only adds a room. *)
Definition bodyOf (a : Action) : option (Room.t → Step) :=
  match a with
  | ActCreateRoom _ _ _ _ => None
  | ActJoinRoom sid pn _ => Some (joinRoomBody sid pn)
  | ActJoinTeam sid _ tm => Some (joinTeamBody sid tm)
  | ActStartGame random sid _ => Some (startGameBody random sid)
  | ActRequestCard sid _ target s r st => Some (requestCardBody sid target s r st)
  | ActDeclareSet sid _ s st => Some (declareSetBody sid s st)
  | ActClaimTurn sid _ => Some (claimTurnBody sid)
  end.

Definition roomOf (a : Action) : string :=
  match a with
  | ActCreateRoom _ _ rn _ | ActJoinRoom _ _ rn | ActJoinTeam _ rn _
  | ActStartGame _ _ rn | ActRequestCard _ rn _ _ _ _ | ActDeclareSet _ rn _ _
  | ActClaimTurn _ rn => rn
  end.

(** requestCard, declareSet, joinTeam and claimTurn. *)
Definition isPlayAction (a : Action) : Prop :=
  match a with
  | ActRequestCard _ _ _ _ _ _ | ActDeclareSet _ _ _ _
  | ActJoinTeam _ _ _ | ActClaimTurn _ _ => True
  | _ => False
  end.

(** A finished room has a winner. *)
Definition finishedHasWinner (room : Room.t) : Prop :=
  Room.gameStatus room = Some "finished" → is_Some (Room.winner room).

(** ** Scenarios *)

(** Eight sockets: [s0] creates room [r1] for 8 players, [s1] to [s7]
    join, [s0]..[s3] pick red and [s4]..[s7] pick blue. *)
Definition lobbyActions : list Action :=
  [ActCreateRoom "s0" "p0" "r1" (Some 8);
   ActJoinRoom "s1" "p1" "r1"; ActJoinRoom "s2" "p2" "r1"; ActJoinRoom "s3" "p3" "r1";
   ActJoinRoom "s4" "p4" "r1"; ActJoinRoom "s5" "p5" "r1"; ActJoinRoom "s6" "p6" "r1";
   ActJoinRoom "s7" "p7" "r1";
   ActJoinTeam "s0" "r1" (Some "red"); ActJoinTeam "s1" "r1" (Some "red");
   ActJoinTeam "s2" "r1" (Some "red"); ActJoinTeam "s3" "r1" (Some "red");
   ActJoinTeam "s4" "r1" (Some "blue"); ActJoinTeam "s5" "r1" (Some "blue");
   ActJoinTeam "s6" "r1" (Some "blue"); ActJoinTeam "s7" "r1" (Some "blue")].

Definition lobby : gmap string Room.t := serve lobbyActions ∅.

(** A room for two: [s0] creates it, [s1] joins, both pick red. *)
Definition unbalancedActions : list Action :=
  [ActCreateRoom "s0" "p0" "r2" (Some 2); ActJoinRoom "s1" "p1" "r2";
   ActJoinTeam "s0" "r2" (Some "red"); ActJoinTeam "s1" "r2" (Some "red")].

Definition unbalancedLobby : gmap string Room.t := serve unbalancedActions ∅.

(** A room created for a single player. *)
Definition soloRooms : gmap string Room.t :=
  serve [ActCreateRoom "s0" "p0" "solo" (Some 1)] ∅.

(** A random source that always returns one half. *)
Definition half : nat → Unit01 := λ _, mkUnit01 1 2 eq_refl.

Definition seat (i nm tm : string) (h : list Card) : Player.t :=
  Player.mk i nm None (Some tm) h None (Some true) (Some false).

(** A full room of 8 with the fields [startGame] reads: [playerCount]
    and [adminId] are present, [capturedSets] is an array. *)
Definition table : Room.t :=
  Room.mk "r1"
    [seat "s0" "p0" "red" []; seat "s1" "p1" "red" []; seat "s2" "p2" "red" [];
     seat "s3" "p3" "red" []; seat "s4" "p4" "blue" []; seat "s5" "p5" "blue" [];
     seat "s6" "p6" "blue" []; seat "s7" "p7" "blue" []]
    (Some 8) "waiting" ([], []) None [] (CapArray []) None
    (Some 8) (Some "s0") None None None.

Definition tableRooms : gmap string Room.t := {[ "r1" := table ]}.

(** A game for two in progress: [a] (red) holds the ace and 2 of
    hearts, [b] (blue) holds the 3 of hearts and the 8 of clubs; it is
    [a]'s turn. *)
Definition ann : Player.t :=
  seat "a" "Ann" "red" [mkCard "hearts" "ace" "lower"; mkCard "hearts" "2" "lower"].
Definition bob : Player.t :=
  seat "b" "Bob" "blue" [mkCard "hearts" "3" "lower"; mkCard "clubs" "8" "upper"].

Definition duel (cs : CapturedSets) (gs winner : option string) : Room.t :=
  Room.mk "d" [ann; bob]
    (Some 2) "waiting" ([], []) None [] cs None
    (Some 2) (Some "a") (Some "a") gs winner.

Definition captured (tm s st : string) : CapturedSet.t := CapturedSet.mk (Some tm) s st.

Definition threeRed : list CapturedSet.t :=
  [captured "red" "hearts" "lower"; captured "red" "clubs" "lower";
   captured "red" "spades" "lower"].

Definition threeRedTwoBlue : list CapturedSet.t :=
  threeRed ++ [captured "blue" "hearts" "upper"; captured "blue" "clubs" "upper"].
Definition threeRedThreeBlue : list CapturedSet.t :=
  threeRedTwoBlue ++ [captured "blue" "spades" "upper"].
Definition threeRedOneBlue : list CapturedSet.t :=
  threeRed ++ [captured "blue" "hearts" "upper"].

Definition duelPlaying : Room.t := duel (CapArray []) (Some "playing") None.
Definition duelFinished : Room.t := duel (CapArray threeRed) (Some "finished") (Some "red").
(** The same game with [capturedSets] as [createRoom] makes it. *)
Definition duelAsCreated : Room.t := duel (CapByTeam [] []) (Some "playing") None.

Definition duelRooms : gmap string Room.t := {[ "d" := duelPlaying ]}.

(** [duelPlaying] after [a] asked [b] for the 3 of hearts. *)
Definition duelAfterRequest : Room.t :=
  afterTransfer duelPlaying 0 1 0 ann bob (mkCard "hearts" "3" "lower") "hearts" "3".
Definition finishedRooms : gmap string Room.t := {[ "d" := duelFinished ]}.

(** [table] after [s0] has started the game with the source [half]. *)
Definition dealtTable : Room.t :=
  match startGameBody half "s0" table with
  | Updated room => room
  | _ => table
  end.

Definition dealtRooms : gmap string Room.t := {[ "r1" := dealtTable ]}.

(** [s0] asks [s4] for the 10 of hearts and gets it, [s4] asks [s0] for
    the 9 of hearts and gets it, then [s4] asks again out of turn. *)
Definition openingRequests : list Action :=
  [ActRequestCard "s0" "r1" "s4" "hearts" "10" "upper";
   ActRequestCard "s4" "r1" "s0" "hearts" "9" "upper";
   ActRequestCard "s4" "r1" "s0" "hearts" "ace" "lower"].

Definition createdDuelRooms : gmap string Room.t := {[ "d" := duelAsCreated ]}.

(** ** Relations between states *)

(** The same player record up to team, hand and the claim flag. *)
Definition samePerson (p p' : Player.t) : Prop :=
  Player.id p' = Player.id p ∧ Player.name p' = Player.name p ∧
  Player.socketId p' = Player.socketId p ∧ Player.isHost p' = Player.isHost p ∧
  Player.connected p' = Player.connected p.

(** [ps'] is [ps], each player still at its index, followed by the
    players added since. *)
Definition playersKept (ps ps' : list Player.t) : Prop :=
  ∃ kept added, ps' = kept ++ added ∧ Forall2 samePerson ps kept.

(** How a step relates the players before and after: each old player is
    still at its index, the same person, with a claim flag that is set
    only if it was; the players added cannot claim. *)
Definition stepped (p p' : Player.t) : Prop :=
  samePerson p p' ∧
  (truthy (Player.canClaimTurn p') = true → truthy (Player.canClaimTurn p) = true).

(** [ps'] is [ps] stepped, index by index, followed by added players
    who cannot claim the turn. *)
Definition playersStepped (ps ps' : list Player.t) : Prop :=
  ∃ kept added,
    ps' = kept ++ added ∧ Forall2 stepped ps kept ∧
    Forall (λ p, truthy (Player.canClaimTurn p) = false) added.

(** The fields that are written when the room is made, and
    [playerCount] and [adminId], agree. *)
Definition sameSetup (room room' : Room.t) : Prop :=
  Room.name room' = Room.name room ∧ Room.maxPlayers room' = Room.maxPlayers room ∧
  Room.status room' = Room.status room ∧ Room.teams room' = Room.teams room ∧
  Room.currentTurn room' = Room.currentTurn room ∧ Room.deck room' = Room.deck room ∧
  Room.playerCount room' = Room.playerCount room ∧ Room.adminId room' = Room.adminId room.

(** The room holds no more players than its [playerCount], if it has one. *)
Definition withinPlayerCount (room : Room.t) : Prop :=
  ∀ c, Room.playerCount room = Some c → length (Room.players room) ≤ c.

Definition isStartGame (a : Action) : Prop :=
  match a with
  | ActStartGame _ _ _ => True
  | _ => False
  end.

(** Nobody in the room may claim the turn. *)
Definition noClaim (room : Room.t) : Prop :=
  Forall (λ p, truthy (Player.canClaimTurn p) = false) (Room.players room).

(** The turn holder, if there is one, is a player of the room. *)
Definition turnHolderInRoom (room : Room.t) : Prop :=
  ∀ t, Room.currentTurnPlayerId room = Some t →
       ∃ i p, Room.players room !! i = Some p ∧ Player.id p = t.

(** startGame, requestCard, declareSet and claimTurn. *)
Definition isGameAction (a : Action) : Prop :=
  match a with
  | ActStartGame _ _ _ | ActRequestCard _ _ _ _ _ _
  | ActDeclareSet _ _ _ _ | ActClaimTurn _ _ => True
  | _ => False
  end.

(** ** Turn order and further scenarios *)

(** The turn holder after [k] applications of [getNextPlayer], as in [k]
    declarations without a winner; [None] once [getNextPlayer] is
    [undefined]. *)
Fixpoint passTurn (k : nat) (currentPlayerId : string) (players : list Player.t)
  : option string :=
  match k with
  | 0 => Some currentPlayerId
  | S k' =>
      match getNextPlayer currentPlayerId players with
      | Some next => passTurn k' (Player.id next) players
      | None => None
      end
  end.

(** [bob] with the claim flag set; a duel in which it is [a]'s turn and
    [b] may claim it. *)
Definition bobMayClaim : Player.t := Player.setCanClaimTurn bob (Some true).

Definition claimRooms : gmap string Room.t :=
  {[ "d" := Room.setPlayers duelPlaying [ann; bobMayClaim] ]}.

(** [a] (red) holds the six lower hearts, [b] (blue) the 8 of clubs. *)
Definition annComplete : Player.t :=
  seat "a" "Ann" "red" ((λ r, mkCard "hearts" r "lower") <$> lowerRanks).

Definition completeRoom : Room.t :=
  Room.setPlayers duelPlaying [annComplete; seat "b" "Bob" "blue" [mkCard "clubs" "8" "upper"]].

Definition completeRooms : gmap string Room.t := {[ "d" := completeRoom ]}.

(** The room of [lobby] and its host. *)
Definition lobbyRoom : Room.t :=
  match lobby !! "r1" with
  | Some room => room
  | None => table
  end.

Definition lobbyHost : Player.t :=
  match Room.players lobbyRoom !! 0 with
  | Some p => p
  | None => ann
  end.


(** * Properties *)

(** ** Facts about the deck builder *)

Lemma floorTimes_lt u n : 0 < n → floorTimes u n < n.
Proof.
  intros Hn. unfold floorTimes. destruct u as [p q Hpq]; simpl.
  apply Nat.ltb_lt in Hpq.
  apply Nat.Div0.div_lt_upper_bound. nia.
Qed.

Lemma insert_Permutation_cons (l : list Card) i a b :
  l !! i = Some a → b :: l ≡ₚ a :: <[i := b]> l.
Proof.
  revert i. induction l as [|x l IH]; intros [|i] Hi; simplify_eq/=.
  - apply perm_swap.
  - etrans; [apply perm_swap|].
    etrans; [apply perm_skip, (IH i Hi)|]. apply perm_swap.
Qed.

Lemma insert_swap_Permutation (l : list Card) i j a b :
  l !! i = Some a → l !! j = Some b → <[j := a]> (<[i := b]> l) ≡ₚ l.
Proof.
  intros Hi Hj.
  assert (Hj' : <[i := b]> l !! j = Some b).
  { destruct (decide (i = j)) as [->|Hne].
    - apply list_lookup_insert_eq. by eapply lookup_lt_Some.
    - by rewrite list_lookup_insert_ne. }
  apply (Permutation_cons_inv (a := b)).
  rewrite <- (insert_Permutation_cons _ j b a Hj').
  symmetry. by apply insert_Permutation_cons.
Qed.

Lemma swap_Permutation i j deck : swap i j deck ≡ₚ deck.
Proof.
  unfold swap. destruct (deck !! j) as [dj|] eqn:Hj; [|done].
  destruct (deck !! i) as [di|] eqn:Hi; [|done].
  by apply insert_swap_Permutation.
Qed.

Lemma shuffleLoop_Permutation random calls i deck :
  shuffleLoop random calls i deck ≡ₚ deck.
Proof.
  revert calls deck. induction i as [|i IH]; intros calls deck; simpl; [done|].
  rewrite IH. apply swap_Permutation.
Qed.

Lemma orderedDeck_specDeck : orderedDeck ≡ₚ specDeck.
Proof. apply (bool_decide_unpack _). by vm_compute. Qed.

Lemma specDeck_NoDup : NoDup specDeck.
Proof. apply (bool_decide_unpack _). by vm_compute. Qed.

Lemma createAndShuffleDeck_Permutation random :
  createAndShuffleDeck random ≡ₚ specDeck.
Proof.
  unfold createAndShuffleDeck.
  rewrite shuffleLoop_Permutation. apply orderedDeck_specDeck.
Qed.

(** Every index the shuffle loop draws lies inside the part of the array
    still to be shuffled, so [swap] never leaves the array. *)
Lemma shuffle_index_in_range (random : nat → Unit01) calls i :
  floorTimes (random calls) (i + 1) ≤ i.
Proof. pose proof (floorTimes_lt (random calls) (i + 1)). lia. Qed.

Lemma specDeck_covers s st r :
  s ∈ suits → st ∈ ["lower"; "upper"] → r ∈ specRanks st → mkCard s r st ∈ specDeck.
Proof.
  intros Hs Hst Hr. unfold specDeck.
  apply list_elem_of_bind. exists s. split; [|done].
  apply list_elem_of_bind. exists st. split; [|done].
  apply list_elem_of_bind. exists r. split; [|done].
  apply list_elem_of_singleton. done.
Qed.

(** C9.  Whatever the random source returns, [createAndShuffleDeck]
    yields exactly 48 cards, no two with the same (suit, rank, setType),
    containing every rank of each of the 8 sets (4 suits, lower and upper,
    6 ranks each): it is a permutation of the 48-card deck of the
    specification. *)
Theorem createAndShuffleDeck_is_full_deck (random : nat → Unit01) :
  length (createAndShuffleDeck random) = 48 ∧
  NoDup (createAndShuffleDeck random) ∧
  Forall (λ s, Forall (λ st, Forall (λ r,
      mkCard s r st ∈ createAndShuffleDeck random)
    (specRanks st)) ["lower"; "upper"]) suits ∧
  createAndShuffleDeck random ≡ₚ specDeck.
Proof.
  pose proof (createAndShuffleDeck_Permutation random) as Hp.
  split_and!; [| | |done].
  - by rewrite Hp.
  - rewrite Hp. apply specDeck_NoDup.
  - apply Forall_forall; intros s Hs.
    apply Forall_forall; intros st Hst.
    apply Forall_forall; intros r Hr.
    rewrite Hp. by apply specDeck_covers.
Qed.

(** ** Reading a handler's outcome *)

Lemma withRoom_absent body emit roomName (gameRooms : gmap string Room.t) :
  gameRooms !! roomName = None →
  withRoom body emit roomName gameRooms = (gameRooms, error RoomNotFound).
Proof. intros H. unfold withRoom. by rewrite H. Qed.

Lemma withRoom_present body emit roomName (gameRooms : gmap string Room.t) room :
  gameRooms !! roomName = Some room →
  withRoom body emit roomName gameRooms =
    match body room with
    | Updated room' => (<[roomName := room']> gameRooms, emit room')
    | Rejected message => (gameRooms, error message)
    | Threw room' => (<[roomName := room']> gameRooms, throwsTypeError)
    end.
Proof. intros H. unfold withRoom. by rewrite H. Qed.

(** An [error] outcome never comes with a changed map. *)
Lemma withRoom_error body emit roomName (gameRooms gameRooms' : gmap string Room.t) m :
  (∀ room, emit room ≠ error m) →
  withRoom body emit roomName gameRooms = (gameRooms', error m) →
  gameRooms' = gameRooms.
Proof.
  intros Hemit. unfold withRoom.
  destruct (gameRooms !! roomName) as [room|]; [|by intros [= <- _]].
  destruct (body room) as [room'|message|room']; intros [= <- He]; try done.
  by destruct (Hemit room').
Qed.

(** A [gameUpdate] outcome carries the room the body produced, stored
    under the room's name. *)
Lemma withRoom_gameUpdate body roomName (gameRooms gameRooms' : gmap string Room.t) room' :
  withRoom body gameUpdate roomName gameRooms = (gameRooms', gameUpdate room') →
  ∃ room, gameRooms !! roomName = Some room ∧ body room = Updated room' ∧
          gameRooms' = <[roomName := room']> gameRooms.
Proof.
  unfold withRoom. destruct (gameRooms !! roomName) as [room|] eqn:Hr; [|done].
  destruct (body room) as [r1|message|r1] eqn:Hb; intros [= <- He]; simplify_eq.
  by exists room.
Qed.

Lemma some_true {A} (P : A → Prop) `{∀ x, Decision (P x)} (l : list A) :
  some P l = true ↔ ∃ i x, list_find P l = Some (i, x).
Proof.
  unfold some. rewrite bool_decide_eq_true. split.
  - intros (x & Hx & HP)%Exists_exists.
    destruct (list_find_elem_of P l x Hx HP) as [[i y] Hf]. eauto.
  - intros (i & x & (Hl & HP & _)%list_find_Some).
    apply Exists_exists. exists x. split; [|done].
    by eapply list_elem_of_lookup_2.
Qed.

Lemma some_false {A} (P : A → Prop) `{∀ x, Decision (P x)} (l : list A) :
  some P l = false ↔ list_find P l = None.
Proof.
  unfold some. rewrite bool_decide_eq_false, list_find_None.
  rewrite <- Forall_Exists_neg. done.
Qed.

(** ** requestCard *)

Lemma requestCardBody_Updated sid tid s r st room room' :
  requestCardBody sid tid s r st room = Updated room' →
  ∃ ri requester ti target,
    list_find (hasId sid) (Room.players room) = Some (ri, requester) ∧
    list_find (hasId tid) (Room.players room) = Some (ti, target) ∧
    Room.currentTurnPlayerId room = Some sid ∧
    isValidRequest requester target (mkCard s r st) = true ∧
    ((∃ k card, list_find (isCard s r st) (Player.hand target) = Some (k, card) ∧
                room' = afterTransfer room ri ti k requester target card s r)
     ∨ (list_find (isCard s r st) (Player.hand target) = None ∧
        room' = afterMiss room requester target s r)).
Proof.
  unfold requestCardBody.
  destruct (list_find (hasId sid) _) as [[ri requester]|] eqn:Hr; [|done].
  destruct (list_find (hasId tid) _) as [[ti target]|] eqn:Ht; [|done].
  pose proof Hr as (_ & Hrid & _)%list_find_Some. unfold hasId in Hrid.
  case_bool_decide as Hturn; simpl; [|done].
  destruct (isValidRequest _ _ _) eqn:Hvalid; simpl; [|done].
  intros [= <-]. exists ri, requester, ti, target.
  split_and!; [done|done|congruence|done|].
  destruct (some (isCard s r st) (Player.hand target)) eqn:Hsome.
  - apply some_true in Hsome as (k & card & Hk). left. exists k, card.
    split; [done|]. unfold transferCard. by rewrite Hk.
  - apply some_false in Hsome. by right.
Qed.

Lemma isValidRequest_true requester target c :
  isValidRequest requester target c = true ↔
    Player.id requester ≠ Player.id target ∧
    Player.team requester ≠ Player.team target ∧
    Player.hand requester ≠ [] ∧
    Player.hand target ≠ [] ∧
    Exists (inSet (suit c) (setType c)) (Player.hand requester) ∧
    ¬ Exists (isCard (suit c) (rank c) (setType c)) (Player.hand requester).
Proof.
  unfold isValidRequest, some.
  rewrite <- !length_zero_iff_nil.
  repeat (case_bool_decide; simpl); intuition congruence.
Qed.

Lemma requestCardBody_not_Threw sid tid s r st room room' :
  requestCardBody sid tid s r st room ≠ Threw room'.
Proof.
  unfold requestCardBody.
  destruct (list_find (hasId sid) _) as [[ri requester]|]; [|done].
  destruct (list_find (hasId tid) _) as [[ti target]|]; [|done].
  case_bool_decide; simpl; [|done].
  by destruct (isValidRequest _ _ _).
Qed.

(** ** Hands as one multiset of cards *)

Lemma concat_insert_Permutation (hands : list (list Card)) i old new :
  hands !! i = Some old →
  concat (<[i := new]> hands) ++ old ≡ₚ concat hands ++ new.
Proof.
  revert i. induction hands as [|h hands IH]; intros [|i] Hi; simplify_eq/=.
  - solve_Permutation.
  - rewrite <- !(assoc_L (++)). by rewrite (IH i Hi).
Qed.

(** Moving the card at index [k] of one hand to the end of another keeps
    the cards of the room the same. *)
Lemma move_card_Permutation (hands : list (list Card)) ri ti k hr ht card :
  ri ≠ ti → hands !! ri = Some hr → hands !! ti = Some ht → ht !! k = Some card →
  concat (<[ri := hr ++ [card]]> (<[ti := delete k ht]> hands)) ≡ₚ concat hands.
Proof.
  intros Hne Hr Ht Hk.
  assert (Hr' : <[ti := delete k ht]> hands !! ri = Some hr)
    by (by rewrite list_lookup_insert_ne).
  pose proof (concat_insert_Permutation _ ri hr (hr ++ [card]) Hr') as H2.
  pose proof (concat_insert_Permutation _ ti ht (delete k ht) Ht) as H1.
  pose proof (delete_Permutation ht k card Hk) as H3.
  apply (Permutation_app_inv_r (hr ++ ht)).
  rewrite (assoc_L (++)), H2.
  transitivity ((concat (<[ti:=delete k ht]> hands) ++ ht) ++ hr ++ [card]);
    [solve_Permutation|].
  rewrite H1. rewrite H3 at 2. solve_Permutation.
Qed.

Lemma list_find_lookup {A} (P : A → Prop) `{∀ x, Decision (P x)} (l : list A) i x :
  list_find P l = Some (i, x) → l !! i = Some x ∧ P x.
Proof. intros (? & ? & _)%list_find_Some. done. Qed.

Lemma requestCardBody_allHands sid tid s r st room room' :
  requestCardBody sid tid s r st room = Updated room' →
  allHands room' ≡ₚ allHands room.
Proof.
  intros (ri & requester & ti & target & Hr & Ht & _ & Hvalid & Hcase)%requestCardBody_Updated.
  apply isValidRequest_true in Hvalid as (Hids & _).
  apply list_find_lookup in Hr as [Hr _]. apply list_find_lookup in Ht as [Ht _].
  destruct Hcase as [(k & card & Hk & ->)|[_ ->]]; [|done].
  apply list_find_lookup in Hk as [Hk _].
  unfold allHands, afterTransfer; simpl. rewrite !list_fmap_insert; simpl.
  apply move_card_Permutation; [congruence| | |done].
  - by rewrite list_lookup_fmap, Hr.
  - by rewrite list_lookup_fmap, Ht.
Qed.

Lemma requestCard_allHands sid roomName tid s r st (gameRooms : gmap string Room.t) n room :
  gameRooms !! n = Some room →
  ∃ room', (requestCard sid roomName tid s r st gameRooms).1 !! n = Some room' ∧
           allHands room' ≡ₚ allHands room.
Proof.
  intros Hn. unfold requestCard, withRoom.
  destruct (gameRooms !! roomName) as [rm|] eqn:Hrm; [|by exists room].
  destruct (requestCardBody sid tid s r st rm) as [r1|m|r1] eqn:Hb; simpl.
  - destruct (decide (roomName = n)) as [->|Hne].
    + exists r1. rewrite lookup_insert_eq. split; [done|].
      simplify_eq. by eapply requestCardBody_allHands.
    + exists room. by rewrite lookup_insert_ne.
  - by exists room.
  - by destruct (requestCardBody_not_Threw sid tid s r st rm r1).
Qed.

(** ** Dealing *)

Lemma dealHands_allHands players deck :
  concat (Player.hand <$> dealHands players deck) = take (6 * length players) deck.
Proof.
  revert deck. induction players as [|p ps IH]; intros deck; simpl; [done|].
  rewrite IH, take_take_drop. f_equal. lia.
Qed.

Lemma dealHands_length players deck : length (dealHands players deck) = length players.
Proof. revert deck. induction players; intros; simpl; by f_equal. Qed.

Lemma dealHands_six players deck :
  6 * length players ≤ length deck →
  Forall (λ p, length (Player.hand p) = 6) (dealHands players deck).
Proof.
  revert deck. induction players as [|p ps IH]; intros deck Hlen; simpl in *; [done|].
  constructor.
  - simpl. rewrite length_take. lia.
  - apply IH. rewrite length_drop. lia.
Qed.

(** Dealing replaces hands and nothing else. *)
Lemma dealHands_same_players players deck :
  Forall2 (λ p p', Player.setHand p (Player.hand p') = p') players (dealHands players deck).
Proof.
  revert deck. induction players as [|p ps IH]; intros deck; simpl; constructor; auto.
Qed.

Lemma dealHands_hand players deck i p :
  dealHands players deck !! i = Some p →
  Player.hand p = take 6 (drop (6 * i) deck).
Proof.
  revert deck i. induction players as [|q ps IH]; intros deck [|i] Hi; simplify_eq/=.
  - done.
  - rewrite (IH _ _ Hi), drop_drop. do 2 f_equal. lia.
Qed.

Lemma elem_of_concat (hands : list (list Card)) c :
  c ∈ concat hands ↔ ∃ i h, hands !! i = Some h ∧ c ∈ h.
Proof.
  rewrite list_elem_of_In, in_concat. split.
  - intros (h & Hh & Hc). apply list_elem_of_In, list_elem_of_lookup in Hh as [i Hi].
    exists i, h. by rewrite list_elem_of_In.
  - intros (i & h & Hi & Hc). exists h. rewrite <- !list_elem_of_In.
    split; [by eapply list_elem_of_lookup_2|done].
Qed.

Lemma NoDup_concat_unique (hands : list (list Card)) i j a b c :
  NoDup (concat hands) → hands !! i = Some a → hands !! j = Some b →
  c ∈ a → c ∈ b → i = j.
Proof.
  revert i j. induction hands as [|h hands IH]; intros i j Hnd Hi Hj Ha Hb; [done|].
  simpl in Hnd. apply NoDup_app in Hnd as (_ & Hdisj & Hnd).
  destruct i as [|i], j as [|j]; simplify_eq/=; [done| | |f_equal; eauto].
  - destruct (Hdisj c Ha). apply elem_of_concat. eauto.
  - destruct (Hdisj c Hb). apply elem_of_concat. eauto.
Qed.

(** ** startGame *)

Lemma startGameBody_Updated random sid room room' :
  startGameBody random sid room = Updated room' →
  Room.adminId room = Some sid ∧
  Room.playerCount room = Some (length (Room.players room)) ∧
  length (filter (onTeam (Some "red")) (Room.players room)) =
    length (filter (onTeam (Some "blue")) (Room.players room)) ∧
  ∃ first, Room.players room !! 0 = Some first ∧
    room' = Room.setGameStatus
              (Room.setCurrentTurnPlayerId
                 (Room.setPlayers room
                    (dealHands (Room.players room) (createAndShuffleDeck random)))
                 (Some (Player.id first)))
              (Some "playing").
Proof.
  unfold startGameBody. generalize (createAndShuffleDeck random) as deck. intros deck.
  case_bool_decide as Hadmin; simpl; [|done].
  case_bool_decide as Hfull; simpl; [|done].
  case_bool_decide as Hbal; simpl; [|done].
  destruct (Room.players room) as [|first rest] eqn:Hps; simpl; [done|].
  intros [= <-]. split_and!; [done|done|done|].
  by exists first.
Qed.

Lemma startGame_gameStarted random sid roomName
    (gameRooms gameRooms' : gmap string Room.t) room' :
  startGame random sid roomName gameRooms = (gameRooms', gameStarted room') →
  ∃ room, gameRooms !! roomName = Some room ∧
          startGameBody random sid room = Updated room' ∧
          gameRooms' = <[roomName := room']> gameRooms.
Proof.
  unfold startGame, withRoom.
  destruct (gameRooms !! roomName) as [room|] eqn:Hr; [|done].
  destruct (startGameBody random sid room) as [r1|message|r1] eqn:Hb;
    intros [= <- He]; simplify_eq.
  by exists room.
Qed.

(** After a start with 8 players the hands are the shuffled deck cut
    into 8 consecutive runs of 6. *)
Lemma startGameBody_deals random sid room room' :
  startGameBody random sid room = Updated room' →
  length (Room.players room) = 8 →
  allHands room' = createAndShuffleDeck random ∧
  Forall (λ p, length (Player.hand p) = 6) (Room.players room').
Proof.
  intros (_ & _ & _ & first & _ & ->)%startGameBody_Updated Hlen.
  pose proof (createAndShuffleDeck_Permutation random) as Hp.
  apply Permutation_length in Hp. change (length specDeck) with 48 in Hp.
  unfold allHands; simpl. split.
  - rewrite dealHands_allHands, Hlen. apply take_ge. lia.
  - apply dealHands_six. lia.
Qed.

Lemma serve_requests_allHands actions (gameRooms : gmap string Room.t) n room :
  Forall isRequestCard actions →
  gameRooms !! n = Some room →
  ∃ room', serve actions gameRooms !! n = Some room' ∧ allHands room' ≡ₚ allHands room.
Proof.
  intros Hall. revert gameRooms room.
  induction Hall as [|a actions Ha _ IH]; intros gameRooms room Hn; [by exists room|].
  destruct a; try done. unfold serve; simpl.
  destruct (requestCard_allHands socketId roomName targetPlayerId s r st gameRooms n room Hn)
    as (r1 & Hr1 & Hp1).
  destruct (IH _ _ Hr1) as (r2 & Hr2 & Hp2).
  exists r2. split; [done|]. by rewrite Hp2.
Qed.

(** ** requestCard: turn transfer, frame, rejections, conservation *)

(** C5.  After every requestCard that is not rejected, the turn holder is
    the target: [currentTurnPlayerId] equals [targetPlayerId].  If the
    target held the requested card, the first such card is removed from the
    target's hand and appended to the requester's hand; if not, no hand
    changes. *)
Theorem requestCard_turn_passes_to_target sid roomName tid s r st
    (gameRooms gameRooms' : gmap string Room.t) room' :
  requestCard sid roomName tid s r st gameRooms = (gameRooms', gameUpdate room') →
  gameRooms' !! roomName = Some room' ∧
  Room.currentTurnPlayerId room' = Some tid ∧
  ∃ room ri requester ti target,
    gameRooms !! roomName = Some room ∧
    list_find (hasId sid) (Room.players room) = Some (ri, requester) ∧
    list_find (hasId tid) (Room.players room) = Some (ti, target) ∧
    ((∃ k, list_find (isCard s r st) (Player.hand target) = Some (k, mkCard s r st) ∧
           Room.players room' =
             <[ri := Player.setHand requester (Player.hand requester ++ [mkCard s r st])]>
               (<[ti := Player.setHand target (delete k (Player.hand target))]>
                  (Room.players room)))
     ∨ (¬ Exists (isCard s r st) (Player.hand target) ∧
        Room.players room' = Room.players room)).
Proof.
  intros (room & Hroom & Hbody & ->)%withRoom_gameUpdate.
  apply requestCardBody_Updated in Hbody
    as (ri & requester & ti & target & Hr & Ht & _ & _ & Hcase).
  pose proof Ht as [_ Htid]%list_find_lookup. unfold hasId in Htid.
  split; [by rewrite lookup_insert_eq|].
  split; [by destruct Hcase as [(k & card & _ & ->)|[_ ->]]; simpl; rewrite Htid|].
  exists room, ri, requester, ti, target. split_and!; [done..|].
  destruct Hcase as [(k & card & Hk & ->)|[Hnone ->]].
  - left. exists k.
    pose proof Hk as [_ (Hs & Hr' & Hst)]%list_find_lookup.
    assert (card = mkCard s r st) as -> by (destruct card; simpl in *; congruence).
    done.
  - right. split; [|done]. apply some_false in Hnone.
    unfold some in Hnone. by apply bool_decide_eq_false in Hnone.
Qed.

Lemma requestCard_turn_passes_to_target_witness :
  requestCard "a" "d" "b" "hearts" "3" "lower" duelRooms
    = ({[ "d" := duelAfterRequest ]}, gameUpdate duelAfterRequest)
  ∧ Room.currentTurnPlayerId duelAfterRequest = Some "b".
Proof.
  assert (H : requestCard "a" "d" "b" "hearts" "3" "lower" duelRooms
              = ({[ "d" := duelAfterRequest ]}, gameUpdate duelAfterRequest))
    by (vm_compute; reflexivity).
  split; [exact H|].
  exact (proj1 (proj2 (requestCard_turn_passes_to_target _ _ _ _ _ _ _ _ _ H))).
Defined.

Lemma setHand_same p : Player.setHand p (Player.hand p) = p.
Proof. by destruct p. Qed.

(** C10.  A successful requestCard changes at most the requester's hand,
    the target's hand, [currentTurnPlayerId] and [lastAction].  The players
    are the same, in the same order, and differ at most in their hands; a
    player who is neither the requester nor the target is untouched;
    [capturedSets], the status fields, [winner] and every other field of
    the room are unchanged, as are the other rooms. *)
Theorem requestCard_frame sid roomName tid s r st
    (gameRooms gameRooms' : gmap string Room.t) room' :
  requestCard sid roomName tid s r st gameRooms = (gameRooms', gameUpdate room') →
  ∃ room,
    gameRooms !! roomName = Some room ∧
    gameRooms' = <[roomName := room']> gameRooms ∧
    Forall2 (λ p p', Player.setHand p' (Player.hand p) = p ∧
                     (Player.id p ≠ sid → Player.id p ≠ tid → p' = p))
            (Room.players room) (Room.players room') ∧
    Room.capturedSets room' = Room.capturedSets room ∧
    Room.status room' = Room.status room ∧
    Room.gameStatus room' = Room.gameStatus room ∧
    Room.winner room' = Room.winner room ∧
    Room.setCurrentTurnPlayerId
      (Room.setLastAction (Room.setPlayers room' (Room.players room)) (Room.lastAction room))
      (Room.currentTurnPlayerId room) = room.
Proof.
  intros (room & Hroom & Hbody & ->)%withRoom_gameUpdate.
  exists room. split; [done|]. split; [done|].
  apply requestCardBody_Updated in Hbody
    as (ri & requester & ti & target & Hr & Ht & _ & _ & Hcase).
  apply list_find_lookup in Hr as [Hr Hrid]. apply list_find_lookup in Ht as [Ht Htid].
  unfold hasId in *.
  assert (Hrefl : Forall2 (λ p p', Player.setHand p' (Player.hand p) = p ∧
                     (Player.id p ≠ sid → Player.id p ≠ tid → p' = p))
                    (Room.players room) (Room.players room)).
  { apply Forall_Forall2_diag, Forall_forall. intros p _. by rewrite setHand_same. }
  destruct Hcase as [(k & card & Hk & ->)|[_ ->]]; simpl;
    (split_and!; [|done|done|done|done|by destruct room]); [|done].
  rewrite <- (list_insert_id (Room.players room) ti target Ht) at 1.
  rewrite <- (list_insert_id (<[ti := target]> (Room.players room)) ri requester) at 1
    by (by rewrite list_insert_id).
  apply Forall2_insert; [apply Forall2_insert; [done|]|].
  - split; [by destruct target|]. intros _ Hne. by destruct Hne.
  - split; [by destruct requester|]. intros Hne. by destruct Hne.
Qed.

Lemma requestCard_frame_witness :
  requestCard "a" "d" "b" "hearts" "3" "lower" duelRooms
    = ({[ "d" := duelAfterRequest ]}, gameUpdate duelAfterRequest)
  ∧ ∃ room, duelRooms !! "d" = Some room ∧
            Room.capturedSets duelAfterRequest = Room.capturedSets room ∧
            Room.winner duelAfterRequest = Room.winner room.
Proof.
  assert (H : requestCard "a" "d" "b" "hearts" "3" "lower" duelRooms
              = ({[ "d" := duelAfterRequest ]}, gameUpdate duelAfterRequest))
    by (vm_compute; reflexivity).
  split; [exact H|].
  destruct (requestCard_frame _ _ _ _ _ _ _ _ _ H)
    as (room & Hroom & _ & _ & Hcs & _ & _ & Hw & _).
  exists room. split; [exact Hroom|]. split; [exact Hcs|exact Hw].
Defined.

Lemma NoDup_concat_lookup (hands : list (list Card)) i h :
  NoDup (concat hands) → hands !! i = Some h → NoDup h.
Proof.
  revert i. induction hands as [|h0 hands IH]; intros i Hnd Hi; [done|].
  simpl in Hnd. apply NoDup_app in Hnd as (Hh0 & _ & Hrest).
  destruct i as [|i]; simplify_eq/=; eauto.
Qed.

(** C6.  From the deal of a game of 8 on, whatever requestCard actions
    follow (accepted or rejected, on this room or another), the hands of
    the room hold 48 cards, they are exactly the 48 cards of the deck with no
    card twice, and every card of the deck is in the hand of exactly one
    player.  A request accepted in such a room for a card the target holds
    removes exactly that one card from the target's hand, which is one card
    shorter and no longer has the card, and appends the same card to the
    requester's hand, which did not have it; nothing else changes in any
    hand. *)
Theorem requestCard_conserves_cards random sid roomName
    (gameRooms gameRooms0 : gmap string Room.t) room0 actions :
  startGame random sid roomName gameRooms = (gameRooms0, gameStarted room0) →
  length (Room.players room0) = 8 →
  Forall isRequestCard actions →
  ∃ roomN,
    serve actions gameRooms0 !! roomName = Some roomN ∧
    length (allHands roomN) = 48 ∧
    allHands roomN ≡ₚ specDeck ∧
    NoDup (allHands roomN) ∧
    (∀ c, c ∈ specDeck →
      ∃ i p, Room.players roomN !! i = Some p ∧ c ∈ Player.hand p ∧
             ∀ j q, Room.players roomN !! j = Some q → c ∈ Player.hand q → j = i) ∧
    (∀ rsid tid s r st gameRooms' room' ti target,
       requestCard rsid roomName tid s r st (serve actions gameRooms0)
         = (gameRooms', gameUpdate room') →
       list_find (hasId tid) (Room.players roomN) = Some (ti, target) →
       mkCard s r st ∈ Player.hand target →
       ∃ ri requester k,
         list_find (hasId rsid) (Room.players roomN) = Some (ri, requester) ∧
         Player.hand target !! k = Some (mkCard s r st) ∧
         Room.players room' =
           <[ri := Player.setHand requester (Player.hand requester ++ [mkCard s r st])]>
             (<[ti := Player.setHand target (delete k (Player.hand target))]>
                (Room.players roomN)) ∧
         S (length (delete k (Player.hand target))) = length (Player.hand target) ∧
         (mkCard s r st ∉ delete k (Player.hand target)) ∧
         (mkCard s r st ∉ Player.hand requester)).
Proof.
  intros (room & Hroom & Hbody & ->)%startGame_gameStarted Hlen Hreqs.
  assert (Hlen0 : length (Room.players room) = 8).
  { apply startGameBody_Updated in Hbody as (_ & _ & _ & first & _ & ->).
    simpl in Hlen. by rewrite dealHands_length in Hlen. }
  destruct (startGameBody_deals _ _ _ _ Hbody Hlen0) as [Hdeal _].
  destruct (serve_requests_allHands actions (<[roomName := room0]> gameRooms)
              roomName room0 Hreqs) as (roomN & HN & Hperm);
    [by rewrite lookup_insert_eq|].
  assert (Hspec : allHands roomN ≡ₚ specDeck).
  { rewrite Hperm, Hdeal. apply createAndShuffleDeck_Permutation. }
  assert (Hnd : NoDup (allHands roomN)) by (rewrite Hspec; apply specDeck_NoDup).
  exists roomN. split_and!; [done|by rewrite Hspec|done|done| |].
  - intros c Hc. rewrite <- Hspec in Hc.
    apply elem_of_concat in Hc as (i & h & Hi & Hch).
    apply list_lookup_fmap_Some in Hi as (p & -> & Hp).
    exists i, p. split_and!; [done..|].
    intros j q Hq Hcq.
    eapply (NoDup_concat_unique _ j i _ _ c Hnd); [|by rewrite list_lookup_fmap, Hp|done..].
    by rewrite list_lookup_fmap, Hq.
  - intros rsid tid s r st gameRooms' room' ti target Hreq Htarget Hheld.
    apply withRoom_gameUpdate in Hreq as (rm & Hrm & Hstep & _).
    rewrite HN in Hrm. injection Hrm as <-.
    apply requestCardBody_Updated in Hstep
      as (ri & requester & ti' & target' & Hr & Ht & _ & Hvalid & Hcase).
    rewrite Htarget in Ht. injection Ht as <- <-.
    apply isValidRequest_true in Hvalid as (_ & _ & _ & _ & _ & Hnot). simpl in Hnot.
    destruct Hcase as [(k & card & Hk & ->)|[Hnone _]].
    + pose proof Hk as [Hlk (Hs & Hr' & Hst)]%list_find_lookup.
      assert (card = mkCard s r st) as -> by (destruct card; simpl in *; congruence).
      pose proof Htarget as [Htl _]%list_find_lookup.
      assert (Hndt : NoDup (Player.hand target)).
      { apply (NoDup_concat_lookup _ ti _ Hnd). by rewrite list_lookup_fmap, Htl. }
      exists ri, requester, k. split_and!; [done|done|done| | |].
      * rewrite length_delete by eauto. apply lookup_lt_Some in Hlk. lia.
      * rewrite (delete_Permutation _ _ _ Hlk) in Hndt. by apply NoDup_cons in Hndt as [? _].
      * intros Hin. apply Hnot, Exists_exists. by exists (mkCard s r st).
    + apply list_find_None in Hnone.
      by destruct (proj1 (Forall_forall _ _) Hnone _ Hheld).
Qed.

Lemma requestCard_conserves_cards_witness :
  startGame half "s0" "r1" tableRooms = (dealtRooms, gameStarted dealtTable) ∧
  length (Room.players dealtTable) = 8 ∧
  Forall isRequestCard openingRequests ∧
  ∃ roomN, serve openingRequests dealtRooms !! "r1" = Some roomN ∧
           length (allHands roomN) = 48.
Proof.
  assert (H1 : startGame half "s0" "r1" tableRooms = (dealtRooms, gameStarted dealtTable))
    by (vm_compute; reflexivity).
  assert (H2 : length (Room.players dealtTable) = 8) by (vm_compute; reflexivity).
  assert (H3 : Forall isRequestCard openingRequests) by (repeat constructor).
  split; [exact H1|]. split; [exact H2|]. split; [exact H3|].
  destruct (requestCard_conserves_cards _ _ _ _ _ _ _ H1 H2 H3) as (roomN & HN & Hlen & _).
  exists roomN. split; [exact HN|exact Hlen].
Defined.

Lemma requestCard_found sid roomName tid s r st (gameRooms : gmap string Room.t)
    room ri requester ti target :
  gameRooms !! roomName = Some room →
  list_find (hasId sid) (Room.players room) = Some (ri, requester) →
  list_find (hasId tid) (Room.players room) = Some (ti, target) →
  requestCard sid roomName tid s r st gameRooms =
    if negb (bool_decide (Room.currentTurnPlayerId room = Some sid))
    then (gameRooms, error NotYourTurn)
    else if negb (isValidRequest requester target (mkCard s r st))
    then (gameRooms, error InvalidRequest)
    else match requestCardBody sid tid s r st room with
         | Updated room' => (<[roomName := room']> gameRooms, gameUpdate room')
         | _ => (gameRooms, error PlayerNotFound)
         end.
Proof.
  intros Hroom Hr Ht. unfold requestCard. rewrite (withRoom_present _ _ _ _ _ Hroom).
  pose proof Hr as [_ Hrid]%list_find_lookup. unfold hasId in Hrid.
  unfold requestCardBody. rewrite Hr, Ht.
  rewrite (bool_decide_ext (Some (Player.id requester) = Room.currentTurnPlayerId room)
             (Room.currentTurnPlayerId room = Some sid)) by (rewrite Hrid; naive_solver).
  destruct (bool_decide _); simpl; [|done].
  by destruct (isValidRequest _ _ _).
Qed.

Lemma isValidRequest_false requester target c :
  isValidRequest requester target c = false ↔
    Player.id target = Player.id requester ∨
    Player.team target = Player.team requester ∨
    Player.hand requester = [] ∨
    Player.hand target = [] ∨
    ¬ Exists (inSet (suit c) (setType c)) (Player.hand requester) ∨
    Exists (isCard (suit c) (rank c) (setType c)) (Player.hand requester).
Proof.
  rewrite <- not_true_iff_false, isValidRequest_true.
  destruct (decide (Player.id target = Player.id requester)); [intuition congruence|].
  destruct (decide (Player.team target = Player.team requester)); [intuition congruence|].
  destruct (decide (Player.hand requester = [])); [intuition congruence|].
  destruct (decide (Player.hand target = [])); [intuition congruence|].
  destruct (decide (Exists (inSet (suit c) (setType c)) (Player.hand requester)));
    [|intuition congruence].
  destruct (decide (Exists (isCard (suit c) (rank c) (setType c)) (Player.hand requester)));
    intuition congruence.
Qed.

Lemma requestCard_not_found sid roomName tid s r st (gameRooms : gmap string Room.t) room :
  gameRooms !! roomName = Some room →
  list_find (hasId sid) (Room.players room) = None ∨
  list_find (hasId tid) (Room.players room) = None →
  requestCard sid roomName tid s r st gameRooms = (gameRooms, error PlayerNotFound).
Proof.
  intros Hroom Hnone. unfold requestCard. rewrite (withRoom_present _ _ _ _ _ Hroom).
  unfold requestCardBody.
  destruct (list_find (hasId sid) _) as [[ri rq]|]; [|done].
  destruct (list_find (hasId tid) _) as [[ti tg]|]; [|done].
  by destruct Hnone.
Qed.

(** C4, as the code has it.  In an existing room, a request whose
    socket or whose target is not a player of the room fails with NotFound
    ('Player not found'), whoever holds the turn.  When both are players of
    the room: a request by anyone but the turn holder fails with
    NotYourTurn; a request by the turn holder fails with InvalidRequest
    exactly when [isValidRequest] is false, which is exactly when the target
    is the requester or on the requester's team, either hand is empty, the
    requester holds no card of the requested (suit, setType) set, or the
    requester already holds the requested card.  Every request that ends in
    an error, whoever sent it, leaves all rooms unchanged. *)
Theorem requestCard_rejections sid roomName tid s r st (gameRooms : gmap string Room.t)
    room :
  gameRooms !! roomName = Some room →
  (list_find (hasId sid) (Room.players room) = None ∨
   list_find (hasId tid) (Room.players room) = None →
     requestCard sid roomName tid s r st gameRooms = (gameRooms, error PlayerNotFound)) ∧
  (∀ ri requester ti target,
     list_find (hasId sid) (Room.players room) = Some (ri, requester) →
     list_find (hasId tid) (Room.players room) = Some (ti, target) →
     (Room.currentTurnPlayerId room ≠ Some sid →
        requestCard sid roomName tid s r st gameRooms = (gameRooms, error NotYourTurn)) ∧
     (Room.currentTurnPlayerId room = Some sid →
        (requestCard sid roomName tid s r st gameRooms = (gameRooms, error InvalidRequest)
         ↔ isValidRequest requester target (mkCard s r st) = false)) ∧
     (isValidRequest requester target (mkCard s r st) = false ↔
        Player.id target = Player.id requester ∨
        Player.team target = Player.team requester ∨
        Player.hand requester = [] ∨
        Player.hand target = [] ∨
        ¬ Exists (inSet s st) (Player.hand requester) ∨
        Exists (isCard s r st) (Player.hand requester))) ∧
  (∀ gameRooms' m,
     requestCard sid roomName tid s r st gameRooms = (gameRooms', error m) →
     gameRooms' = gameRooms).
Proof.
  intros Hroom. split_and!.
  - by apply requestCard_not_found.
  - intros ri requester ti target Hr Ht.
    pose proof (requestCard_found sid roomName tid s r st _ _ _ _ _ _ Hroom Hr Ht) as Heq.
    split_and!.
    + intros Hturn. rewrite Heq. by rewrite bool_decide_eq_false_2.
    + intros Hturn. rewrite Heq. rewrite bool_decide_eq_true_2 by done. simpl.
      destruct (isValidRequest _ _ _); simpl; [|done].
      split; [|done]. by destruct (requestCardBody _ _ _ _ _ _).
    + apply (isValidRequest_false requester target (mkCard s r st)).
  - intros gameRooms' m. by apply withRoom_error.
Qed.

Lemma requestCard_rejections_witness :
  duelRooms !! "d" = Some duelPlaying ∧
  list_find (hasId "a") (Room.players duelPlaying) = Some (0, ann) ∧
  list_find (hasId "b") (Room.players duelPlaying) = Some (1, bob) ∧
  Room.currentTurnPlayerId duelPlaying = Some "a" ∧
  isValidRequest ann bob (mkCard "hearts" "ace" "lower") = false ∧
  requestCard "a" "d" "b" "hearts" "ace" "lower" duelRooms = (duelRooms, error InvalidRequest) ∧
  list_find (hasId "nobody") (Room.players duelPlaying) = None ∧
  requestCard "a" "d" "nobody" "hearts" "3" "lower" duelRooms
    = (duelRooms, error PlayerNotFound).
Proof.
  assert (H1 : duelRooms !! "d" = Some duelPlaying) by (vm_compute; reflexivity).
  assert (H2 : list_find (hasId "a") (Room.players duelPlaying) = Some (0, ann))
    by (vm_compute; reflexivity).
  assert (H3 : list_find (hasId "b") (Room.players duelPlaying) = Some (1, bob))
    by (vm_compute; reflexivity).
  assert (H4 : Room.currentTurnPlayerId duelPlaying = Some "a") by reflexivity.
  assert (H5 : isValidRequest ann bob (mkCard "hearts" "ace" "lower") = false)
    by (vm_compute; reflexivity).
  assert (H6 : list_find (hasId "nobody") (Room.players duelPlaying) = None)
    by (vm_compute; reflexivity).
  split; [exact H1|]. split; [exact H2|]. split; [exact H3|].
  split; [exact H4|]. split; [exact H5|].
  split.
  - exact (proj2 (proj1 (proj2 (proj1 (proj2
             (requestCard_rejections "a" "d" "b" "hearts" "ace" "lower"
                duelRooms duelPlaying H1)) 0 ann 1 bob H2 H3)) H4) H5).
  - split; [exact H6|].
    exact (proj1 (requestCard_rejections "a" "d" "nobody" "hearts" "3" "lower"
                    duelRooms duelPlaying H1) (or_intror H6)).
Defined.

(** In the lobby that eight sockets built with createRoom, joinRoom and
    joinTeam, [s1] is a player of the room and does not hold the turn
    (nobody does).  Its request to a target id nobody has is answered
    PlayerNotFound, not NotYourTurn. *)
Lemma requestCard_unknown_target_not_NotYourTurn :
  lobby !! "r1" = Some lobbyRoom ∧
  fst <$> list_find (hasId "s1") (Room.players lobbyRoom) = Some 1 ∧
  Room.currentTurnPlayerId lobbyRoom = None ∧
  requestCard "s1" "r1" "nobody" "hearts" "ace" "lower" lobby
    = (lobby, error PlayerNotFound) ∧
  requestCard "s1" "r1" "nobody" "hearts" "ace" "lower" lobby
    ≠ (lobby, error NotYourTurn).
Proof.
  assert (H : requestCard "s1" "r1" "nobody" "hearts" "ace" "lower" lobby
              = (lobby, error PlayerNotFound)) by (vm_compute; reflexivity).
  split; [vm_compute; reflexivity|].
  split; [vm_compute; reflexivity|].
  split; [vm_compute; reflexivity|].
  split; [exact H|].
  intros Heq. rewrite H in Heq. apply (f_equal snd) in Heq. cbn [snd] in Heq.
  discriminate Heq.
Qed.

(** ** checkWinCondition *)

(** C7, as the code has it.  [checkWinCondition] counts the entries of
    red and of blue.  It returns a team exactly when that team has at least 3
    entries and strictly more than the other, a draw exactly when both have
    at least 3 and the same number, and no winner exactly when both have
    fewer than 3.  So 3 against 2 is a win for the team with 3, 3 against 3
    is a draw, and 3 against 1 is a win for the team with 3. *)
Theorem checkWinCondition_cases (capturedSets : list CapturedSet.t) :
  (checkWinCondition capturedSets = Some "red" ↔
     3 ≤ length (filter (capturedBy "red") capturedSets) ∧
     length (filter (capturedBy "blue") capturedSets)
       < length (filter (capturedBy "red") capturedSets)) ∧
  (checkWinCondition capturedSets = Some "blue" ↔
     3 ≤ length (filter (capturedBy "blue") capturedSets) ∧
     length (filter (capturedBy "red") capturedSets)
       < length (filter (capturedBy "blue") capturedSets)) ∧
  (checkWinCondition capturedSets = Some "draw" ↔
     3 ≤ length (filter (capturedBy "red") capturedSets) ∧
     3 ≤ length (filter (capturedBy "blue") capturedSets) ∧
     length (filter (capturedBy "red") capturedSets)
       = length (filter (capturedBy "blue") capturedSets)) ∧
  (checkWinCondition capturedSets = None ↔
     length (filter (capturedBy "red") capturedSets) < 3 ∧
     length (filter (capturedBy "blue") capturedSets) < 3) ∧
  checkWinCondition threeRedTwoBlue = Some "red" ∧
  checkWinCondition threeRedThreeBlue = Some "draw" ∧
  checkWinCondition threeRedOneBlue = Some "red".
Proof.
  unfold checkWinCondition.
  generalize (length (filter (capturedBy "red") capturedSets)) as red.
  generalize (length (filter (capturedBy "blue") capturedSets)) as blue.
  intros blue red.
  split_and!; [| | | |by vm_compute..];
    destruct (Nat.leb_spec 3 red), (Nat.ltb_spec blue red),
             (Nat.leb_spec 3 blue), (Nat.ltb_spec red blue),
             (Nat.eqb_spec red blue); simpl; split; intros; try done; lia.
Qed.

(** Three entries for red against two for blue: [checkWinCondition]
    names red the winner. *)
Lemma checkWinCondition_three_two :
  length (filter (capturedBy "red") threeRedTwoBlue) = 3 ∧
  length (filter (capturedBy "blue") threeRedTwoBlue) = 2 ∧
  checkWinCondition threeRedTwoBlue = Some "red" ∧
  checkWinCondition threeRedTwoBlue ≠ None.
Proof. by vm_compute. Qed.

(** ** What one event can do to a room *)

Lemma handle_withRoom a body :
  bodyOf a = Some body →
  ∃ emit, ∀ gameRooms, handle a gameRooms = withRoom body emit (roomOf a) gameRooms.
Proof. destruct a; intros [= <-]; simpl; eauto. Qed.

(** A room found after an event was there before and is unchanged, or is
    what the event's body made of the room of that name, or is new. *)
Lemma handle_lookup_inv a (gameRooms : gmap string Room.t) n room' :
  (handle a gameRooms).1 !! n = Some room' →
  gameRooms !! n = Some room' ∨
  (∃ body room, bodyOf a = Some body ∧ gameRooms !! n = Some room ∧
                (body room = Updated room' ∨ body room = Threw room')) ∨
  (∃ sid pn pc, gameRooms !! n = None ∧ room' = newRoom sid pn n pc).
Proof.
  destruct (bodyOf a) as [body|] eqn:Hbody.
  - destruct (handle_withRoom a body Hbody) as [emit ->].
    unfold withRoom. destruct (gameRooms !! roomOf a) as [room|] eqn:Hroom; [|by left].
    destruct (body room) as [r1|m|r1] eqn:Hstep; simpl; [| by left |].
    + destruct (decide (roomOf a = n)) as [<-|Hne].
      * rewrite lookup_insert_eq. intros [= <-]. right; left. exists body, room. eauto.
      * rewrite lookup_insert_ne by done. by left.
    + destruct (decide (roomOf a = n)) as [<-|Hne].
      * rewrite lookup_insert_eq. intros [= <-]. right; left. exists body, room. eauto.
      * rewrite lookup_insert_ne by done. by left.
  - destruct a; try done. simpl. unfold createRoom.
    destruct (_ || _); [by left|].
    case_bool_decide as Hhas; [by left|]. simpl.
    destruct (decide (roomName = n)) as [<-|Hne].
    + rewrite lookup_insert_eq. intros [= <-]. right; right.
      exists socketId, playerName, playerCount. split; [|done].
      by apply eq_None_not_Some.
    + rewrite lookup_insert_ne by done. by left.
Qed.

(** A room stays under its name: after an event it is unchanged or is
    what the event's body made of it. *)
Lemma handle_lookup a (gameRooms : gmap string Room.t) n room :
  gameRooms !! n = Some room →
  ∃ room', (handle a gameRooms).1 !! n = Some room' ∧
           (room' = room ∨
            ∃ body, bodyOf a = Some body ∧
                    (body room = Updated room' ∨ body room = Threw room')).
Proof.
  intros Hn. destruct (bodyOf a) as [body|] eqn:Hbody.
  - destruct (handle_withRoom a body Hbody) as [emit ->].
    unfold withRoom. destruct (gameRooms !! roomOf a) as [rm|] eqn:Hroom; [|by eauto].
    destruct (decide (roomOf a = n)) as [Heq|Hne].
    + rewrite Heq in *. simplify_eq.
      destruct (body room) as [r1|m|r1] eqn:Hstep; simpl.
      * exists r1. rewrite lookup_insert_eq. eauto 6.
      * eauto.
      * exists r1. rewrite lookup_insert_eq. eauto 6.
    + destruct (body rm) as [r1|m|r1]; simpl;
        [rewrite lookup_insert_ne by done|..|rewrite lookup_insert_ne by done]; eauto.
  - destruct a; try done. simpl. unfold createRoom.
    destruct (_ || _); [by eauto|].
    case_bool_decide as Hhas; [by eauto|]. simpl.
    exists room. split; [|by left].
    rewrite lookup_insert_ne; [done|]. intros ->. apply Hhas. by rewrite Hn.
Qed.

(** ** Rooms made by createRoom *)

Lemma newRoom_AsCreated sid pn rn pc : AsCreated (newRoom sid pn rn pc).
Proof. split; simpl; auto. Qed.

Lemma AsCreated_body a body room room' :
  bodyOf a = Some body → AsCreated room →
  body room = Updated room' ∨ body room = Threw room' →
  AsCreated room'.
Proof.
  intros Hbody [Hpc Had Hturn Hgs Hw Hcs Hst Hclaim] Hstep.
  destruct a; simplify_eq/=.
  - unfold joinRoomBody in Hstep. rewrite Hpc in Hstep. simpl in Hstep.
    destruct Hstep as [[= <-]|[=]]. split; simpl; try done.
    apply Forall_app. split; [done|]. by constructor.
  - unfold joinTeamBody in Hstep.
    destruct (list_find _ _) as [[i player]|] eqn:Hf; [|by destruct Hstep].
    destruct Hstep as [[= <-]|[=]]. split; simpl; try done.
    apply Forall_insert; [done|]. simpl.
    apply list_find_lookup in Hf as [Hf _].
    by apply (Forall_lookup_1 _ _ _ _ Hclaim Hf).
  - unfold startGameBody in Hstep. rewrite Had in Hstep.
    rewrite bool_decide_eq_false_2 in Hstep by done. by destruct Hstep.
  - unfold requestCardBody in Hstep. rewrite Hturn in Hstep.
    destruct (list_find (hasId socketId) _) as [[ri rq]|]; [|by destruct Hstep].
    destruct (list_find (hasId targetPlayerId) _) as [[ti tg]|]; [|by destruct Hstep].
    rewrite bool_decide_eq_false_2 in Hstep by done. by destruct Hstep.
  - unfold declareSetBody in Hstep. rewrite Hturn in Hstep.
    destruct (list_find _ _) as [[i dp]|]; [|by destruct Hstep].
    rewrite bool_decide_eq_false_2 in Hstep by done. by destruct Hstep.
  - unfold claimTurnBody in Hstep.
    destruct (list_find _ _) as [[i player]|] eqn:Hf; [|by destruct Hstep].
    apply list_find_lookup in Hf as [Hf _].
    rewrite (Forall_lookup_1 _ _ _ _ Hclaim Hf) in Hstep. by destruct Hstep.
Qed.

Lemma handle_AsCreated a (gameRooms : gmap string Room.t) :
  (∀ n room, gameRooms !! n = Some room → AsCreated room) →
  ∀ n room, (handle a gameRooms).1 !! n = Some room → AsCreated room.
Proof.
  intros Hall n room'
    [Hsame|[(body & room & Hbody & Hroom & Hstep)|(sid & pn & pc & _ & ->)]]%handle_lookup_inv.
  - by eapply Hall.
  - eapply AsCreated_body; [done| |done]. by eapply Hall.
  - apply newRoom_AsCreated.
Qed.

(** Every room of a server that started with no rooms is as [createRoom]
    left it in the fields the game handlers read: no [playerCount], no
    [adminId], no turn holder, [capturedSets] the object [{A: [], B: []}]. *)
Lemma served_rooms_AsCreated actions n room :
  serve actions ∅ !! n = Some room → AsCreated room.
Proof.
  assert (H : ∀ gameRooms : gmap string Room.t,
             (∀ n room, gameRooms !! n = Some room → AsCreated room) →
             ∀ n room, serve actions gameRooms !! n = Some room → AsCreated room).
  { induction actions as [|a actions IH]; intros gameRooms Hall; [done|].
    unfold serve; simpl. apply IH. by apply handle_AsCreated. }
  apply H. intros ? ?. by rewrite lookup_empty.
Qed.

(** No room of such a server can be started: [adminId] is never
    written, so the first test of [startGame] rejects every socket. *)
Lemma startGame_after_createRoom actions random sid roomName :
  startGame random sid roomName (serve actions ∅)
    = (serve actions ∅, error RoomNotFound) ∨
  startGame random sid roomName (serve actions ∅)
    = (serve actions ∅, error OnlyAdmin).
Proof.
  unfold startGame, withRoom.
  destruct (serve actions ∅ !! roomName) as [room|] eqn:Hroom; [right|by left].
  apply served_rooms_AsCreated in Hroom as [_ Had _ _ _ _ _ _].
  unfold startGameBody. rewrite Had. by rewrite bool_decide_eq_false_2.
Qed.

(** In such a server [joinRoom] never answers RoomFull: [playerCount] is
    never written (the capacity went to [maxPlayers]). *)
Lemma joinRoom_after_createRoom actions sid playerName roomName room :
  serve actions ∅ !! roomName = Some room →
  joinRoom sid playerName roomName (serve actions ∅) =
    (<[roomName := Room.setPlayers room
         (Room.players room ++
            [Player.mk sid playerName None (Some "unassigned") [] None (Some true) (Some false)])]>
       (serve actions ∅),
     joinedRoom roomName sid).
Proof.
  intros Hroom. unfold joinRoom, withRoom. rewrite Hroom.
  apply served_rooms_AsCreated in Hroom as [Hpc _ _ _ _ _ _ _].
  unfold joinRoomBody. by rewrite Hpc.
Qed.

(** C1, on the rooms the server makes.  [s0] created the room and is its
    host; the room holds as many players as it was created for.  With two
    red players and no blue one, [startGame] by [s0] does not answer
    TeamsUnbalanced but OnlyAdmin; with four red and four blue players it
    does not start the game either: nothing is dealt, no turn holder and no
    status are set, and the answer is OnlyAdmin again. *)
Theorem startGame_by_host_rejected (random : nat → Unit01) :
  (∃ room host guest,
     unbalancedLobby !! "r2" = Some room ∧
     Room.players room = [host; guest] ∧
     Player.id host = "s0" ∧ Player.isHost host = Some true ∧
     Room.maxPlayers room = Some 2 ∧
     length (filter (onTeam (Some "red")) (Room.players room)) = 2 ∧
     length (filter (onTeam (Some "blue")) (Room.players room)) = 0) ∧
  startGame random "s0" "r2" unbalancedLobby = (unbalancedLobby, error OnlyAdmin) ∧
  (∃ room host,
     lobby !! "r1" = Some room ∧
     Room.players room !! 0 = Some host ∧
     Player.id host = "s0" ∧ Player.isHost host = Some true ∧
     length (Room.players room) = 8 ∧ Room.maxPlayers room = Some 8 ∧
     length (filter (onTeam (Some "red")) (Room.players room)) = 4 ∧
     length (filter (onTeam (Some "blue")) (Room.players room)) = 4) ∧
  startGame random "s0" "r1" lobby = (lobby, error OnlyAdmin).
Proof.
  split_and!.
  - by vm_compute; eexists _, _, _.
  - destruct (startGame_after_createRoom unbalancedActions random "s0" "r2") as [H|H];
      [|exact H].
    apply (f_equal snd) in H. vm_compute in H. discriminate.
  - by vm_compute; eexists _, _.
  - destruct (startGame_after_createRoom lobbyActions random "s0" "r1") as [H|H];
      [|exact H].
    apply (f_equal snd) in H. vm_compute in H. discriminate.
Qed.

(** C3, on the rooms the server makes.  A room created for one player
    holds its host, so it is full; a second socket that joins is not
    answered RoomFull: it is added, and the room holds 2 players, more than
    its capacity. *)
Theorem joinRoom_past_capacity :
  ∃ room room',
    soloRooms !! "solo" = Some room ∧
    Room.maxPlayers room = Some 1 ∧
    length (Room.players room) = 1 ∧
    joinRoom "s1" "p1" "solo" soloRooms
      = (<["solo" := room']> soloRooms, joinedRoom "solo" "s1") ∧
    length (Room.players room') = 2.
Proof. by vm_compute; eexists _, _. Qed.

(** ** declareSet *)

(** On the [capturedSets] object of [createRoom] a declaration by the
    turn holder never gets past [push]. *)
Lemma declareSetBody_CapByTeam sid s st room i declarer A B :
  list_find (hasId sid) (Room.players room) = Some (i, declarer) →
  Room.currentTurnPlayerId room = Some sid →
  Room.capturedSets room = CapByTeam A B →
  declareSetBody sid s st room = Threw room.
Proof.
  intros Hf Hturn Hcs. unfold declareSetBody. rewrite Hf, Hturn, Hcs.
  apply list_find_lookup in Hf as [_ Hid]. unfold hasId in Hid.
  rewrite bool_decide_eq_true_2 by congruence. done.
Qed.


(** A room object that has [capturedSets] as [createRoom] writes it and
    also a turn holder, a state that no sequence of events reaches (see
    [served_rooms_AsCreated]): there a declaration by the turn holder
    appends nothing, the handler throws at [push] with the room as it was. *)
Theorem declareSet_throws_on_created_room :
  Room.capturedSets duelAsCreated = Room.capturedSets (newRoom "a" "Ann" "d" (Some 2)) ∧
  list_find (hasId "a") (Room.players duelAsCreated) = Some (0, ann) ∧
  Room.currentTurnPlayerId duelAsCreated = Some "a" ∧
  declareSet "a" "d" "hearts" "lower" createdDuelRooms
    = (createdDuelRooms, throwsTypeError).
Proof. by vm_compute. Qed.

(** ** Finished rooms *)

Lemma body_status a body room room' :
  bodyOf a = Some body →
  body room = Updated room' ∨ body room = Threw room' →
  (Room.gameStatus room' = Room.gameStatus room ∧ Room.winner room' = Room.winner room) ∨
  (Room.gameStatus room' = Some "finished" ∧ is_Some (Room.winner room')) ∨
  (¬ isPlayAction a ∧ Room.gameStatus room' = Some "playing").
Proof.
  intros Hbody Hstep. destruct a; simplify_eq/=.
  - left. unfold joinRoomBody in Hstep.
    destruct (lengthAtLeast _ _); by destruct Hstep as [[= <-]|[=]].
  - left. unfold joinTeamBody in Hstep.
    destruct (list_find _ _) as [[i player]|]; by destruct Hstep as [[= <-]|[=]].
  - destruct Hstep as [Hup|Hthrew].
    + apply startGameBody_Updated in Hup as (_ & _ & _ & first & _ & ->).
      right; right. by split; [intros []|].
    + left. revert Hthrew. unfold startGameBody.
      generalize (createAndShuffleDeck random) as cards. intros cards.
      repeat (case_bool_decide; simpl; [|done]).
      destruct (dealHands _ _); simpl; [|done]. by intros [= <-].
  - left. destruct Hstep as [Hup|Hthrew];
      [|by destruct (requestCardBody_not_Threw _ _ _ _ _ _ _ Hthrew)].
    apply requestCardBody_Updated in Hup
      as (ri & rq & ti & tg & _ & _ & _ & _ & [(k & card & _ & ->)|[_ ->]]); done.
  - unfold declareSetBody in Hstep.
    destruct (list_find _ _) as [[i dp]|]; [|by destruct Hstep].
    case_bool_decide; simpl in Hstep; [|by destruct Hstep].
    destruct (Room.capturedSets room) as [A B|entries];
      [left; by destruct Hstep as [[=]|[= <-]]|].
    destruct (checkWinCondition _) as [w|].
    + right; left. destruct Hstep as [[= <-]|[=]]. simpl. eauto.
    + left. destruct (getNextPlayer _ _); by destruct Hstep as [[= <-]|[= <-]].
  - left. unfold claimTurnBody in Hstep.
    destruct (list_find _ _) as [[i player]|]; [|by destruct Hstep].
    destruct (truthy _); by destruct Hstep as [[= <-]|[=]].
Qed.

(** A room whose [gameStatus] is finished has a winner, and this holds
    after every event if it held before; requestCard, declareSet, joinTeam
    and claimTurn leave a finished room finished, with a winner (which
    declareSet may replace by another one). *)
Theorem finished_room_keeps_winner a (gameRooms : gmap string Room.t) :
  (∀ n room, gameRooms !! n = Some room → finishedHasWinner room) →
  (∀ n room', (handle a gameRooms).1 !! n = Some room' → finishedHasWinner room') ∧
  (isPlayAction a →
   ∀ n room, gameRooms !! n = Some room → Room.gameStatus room = Some "finished" →
     ∃ room', (handle a gameRooms).1 !! n = Some room' ∧
              Room.gameStatus room' = Some "finished" ∧ is_Some (Room.winner room')).
Proof.
  intros Hall. split.
  - intros n room'
      [Hsame|[(body & room & Hbody & Hroom & Hstep)|(sid & pn & pc & _ & ->)]]%handle_lookup_inv.
    + by eapply Hall.
    + destruct (body_status a body room room' Hbody Hstep)
        as [[Hgs Hw]|[[_ Hw]|[_ Hgs]]]; unfold finishedHasWinner.
      * rewrite Hgs, Hw. by eapply Hall.
      * done.
      * by rewrite Hgs.
    + done.
  - intros Hplay n room Hroom Hfin.
    destruct (handle_lookup a gameRooms n room Hroom)
      as (room' & Hroom' & [->|(body & Hbody & Hstep)]).
    + exists room. split_and!; [done..|]. by eapply Hall.
    + exists room'. split; [done|].
      destruct (body_status a body room room' Hbody Hstep)
        as [[Hgs Hw]|[[Hgs Hw]|[Hno _]]]; [|done..].
      rewrite Hgs, Hw. split; [done|]. by eapply Hall.
Qed.

Lemma finished_room_keeps_winner_witness :
  (∀ n room, finishedRooms !! n = Some room → finishedHasWinner room) ∧
  isPlayAction (ActJoinTeam "a" "d" (Some "blue")) ∧
  finishedRooms !! "d" = Some duelFinished ∧
  Room.gameStatus duelFinished = Some "finished" ∧
  ∃ room', (handle (ActJoinTeam "a" "d" (Some "blue")) finishedRooms).1 !! "d" = Some room' ∧
           Room.gameStatus room' = Some "finished" ∧ is_Some (Room.winner room').
Proof.
  assert (H1 : ∀ n room, finishedRooms !! n = Some room → finishedHasWinner room).
  { intros n room Hn. unfold finishedRooms in Hn.
    apply lookup_singleton_Some in Hn as [_ <-]. intros _. by exists "red". }
  assert (H2 : finishedRooms !! "d" = Some duelFinished) by (vm_compute; reflexivity).
  assert (H3 : Room.gameStatus duelFinished = Some "finished") by reflexivity.
  split; [exact H1|]. split; [exact I|]. split; [exact H2|]. split; [exact H3|].
  exact (proj2 (finished_room_keeps_winner (ActJoinTeam "a" "d" (Some "blue"))
                  finishedRooms H1) I "d" duelFinished H2 H3).
Defined.

(** A room object with a finished game, a state that no sequence of
    events reaches: joinTeam, requestCard and declareSet each still change
    it, since no handler reads the status. *)
Lemma finished_room_still_changes :
  finishedRooms !! "d" = Some duelFinished ∧
  Room.gameStatus duelFinished = Some "finished" ∧
  Room.winner duelFinished = Some "red" ∧
  (joinTeam "a" "d" (Some "blue") finishedRooms).1 !! "d" ≠ Some duelFinished ∧
  (requestCard "a" "d" "b" "hearts" "3" "lower" finishedRooms).1 !! "d" ≠ Some duelFinished ∧
  (declareSet "a" "d" "hearts" "lower" finishedRooms).1 !! "d" ≠ Some duelFinished.
Proof. by vm_compute. Qed.

(** What [startGame] does on a room object that carries [adminId] and
    [playerCount] (no room made by [createRoom] does): it starts only for
    the admin, with [playerCount] players and as many red as blue ones; with
    8 players every hand gets 6 cards, the hands together are the 48 cards
    of the deck, the first player holds the turn and [gameStatus] is
    playing, while [status] keeps its value. *)
Lemma startGame_on_admin_room random sid roomName
    (gameRooms gameRooms' : gmap string Room.t) room' :
  startGame random sid roomName gameRooms = (gameRooms', gameStarted room') →
  ∃ room first,
    gameRooms !! roomName = Some room ∧
    Room.adminId room = Some sid ∧
    Room.playerCount room = Some (length (Room.players room)) ∧
    length (filter (onTeam (Some "red")) (Room.players room)) =
      length (filter (onTeam (Some "blue")) (Room.players room)) ∧
    Room.players room !! 0 = Some first ∧
    Room.currentTurnPlayerId room' = Some (Player.id first) ∧
    Room.gameStatus room' = Some "playing" ∧
    Room.status room' = Room.status room ∧
    Room.players room' = dealHands (Room.players room) (createAndShuffleDeck random) ∧
    (length (Room.players room) = 8 →
       Forall (λ p, length (Player.hand p) = 6) (Room.players room') ∧
       allHands room' = createAndShuffleDeck random ∧
       allHands room' ≡ₚ specDeck ∧ NoDup (allHands room')).
Proof.
  intros (room & Hroom & Hbody & ->)%startGame_gameStarted.
  pose proof Hbody as (Had & Hpc & Hbal & first & Hfirst & ->)%startGameBody_Updated.
  exists room, first. split_and!; try done.
  intros Hlen. destruct (startGameBody_deals _ _ _ _ Hbody Hlen) as [Hall Hsix].
  split_and!; [done|done|..]; rewrite Hall.
  - apply createAndShuffleDeck_Permutation.
  - rewrite createAndShuffleDeck_Permutation. apply specDeck_NoDup.
Qed.

(** * Further properties of the handlers *)

(** ** Errors, other rooms *)

Lemma handle_error_body a body :
  bodyOf a = Some body →
  ∀ (gameRooms gameRooms' : gmap string Room.t) m,
    handle a gameRooms = (gameRooms', error m) → gameRooms' = gameRooms.
Proof.
  intros Hbody gameRooms gameRooms' m.
  destruct a; simplify_eq/=; by apply withRoom_error.
Qed.

(** X1.  Whatever the event, an answer on the [error] or the
    [error:createRoom] channel comes with all rooms exactly as they were:
    every handler returns before its first write. *)
Theorem errors_change_nothing a (gameRooms gameRooms' : gmap string Room.t) m :
  handle a gameRooms = (gameRooms', error m) ∨
  handle a gameRooms = (gameRooms', errorCreateRoom m) →
  gameRooms' = gameRooms.
Proof.
  destruct (bodyOf a) as [body|] eqn:Hbody.
  - intros [H|H]; [by eapply handle_error_body|].
    destruct a; simplify_eq/=;
      unfold joinRoom, joinTeam, startGame, requestCard, declareSet, claimTurn,
             withRoom in H;
      (destruct (gameRooms !! _) as [room|]; [|done]);
      by match type of H with context [match ?b with _ => _ end] => destruct b end.
  - destruct a; try done. simpl. unfold createRoom.
    destruct (_ || _); [by intros [[= <-]|[= <-]]|].
    case_bool_decide; by intros [[= <-]|[=]].
Qed.

Lemma errors_change_nothing_witness :
  handle (ActJoinTeam "nobody" "d" (Some "red")) duelRooms
    = (duelRooms, error PlayerNotFound).
Proof.
  assert (H : handle (ActJoinTeam "nobody" "d" (Some "red")) duelRooms
              = ((handle (ActJoinTeam "nobody" "d" (Some "red")) duelRooms).1,
                 error PlayerNotFound)) by (vm_compute; reflexivity).
  rewrite H at 1.
  by rewrite (errors_change_nothing _ _ _ _ (or_introl H)).
Defined.

(** X2.  An event only touches the room it names: every other room of
    the map, present or absent, is the same before and after. *)
Theorem other_rooms_untouched a (gameRooms : gmap string Room.t) n :
  n ≠ roomOf a → (handle a gameRooms).1 !! n = gameRooms !! n.
Proof.
  intros Hne. destruct (bodyOf a) as [body|] eqn:Hbody.
  - destruct (handle_withRoom a body Hbody) as [emit ->]. unfold withRoom.
    destruct (gameRooms !! roomOf a) as [room|]; [|done].
    destruct (body room); simpl; [|done|]; by rewrite lookup_insert_ne.
  - destruct a; try done. simpl in *. unfold createRoom.
    destruct (_ || _); [done|]. case_bool_decide; [done|]. simpl.
    by rewrite lookup_insert_ne.
Qed.

Lemma other_rooms_untouched_witness :
  (handle (ActJoinTeam "a" "d" (Some "blue")) (<["e" := duelFinished]> duelRooms)).1 !! "e"
    = Some duelFinished.
Proof.
  rewrite (other_rooms_untouched (ActJoinTeam "a" "d" (Some "blue"))
             (<["e" := duelFinished]> duelRooms) "e"); [|discriminate].
  vm_compute; reflexivity.
Defined.

(** ** What a sequence of events keeps *)

(** A property of rooms that new rooms have and every handler body
    keeps holds in all rooms after any sequence of events. *)
Lemma serve_invariant (P : Room.t → Prop) :
  (∀ sid pn rn pc, P (newRoom sid pn rn pc)) →
  (∀ a body room room', bodyOf a = Some body → P room →
     body room = Updated room' ∨ body room = Threw room' → P room') →
  ∀ actions (gameRooms : gmap string Room.t),
    (∀ n room, gameRooms !! n = Some room → P room) →
    ∀ n room, serve actions gameRooms !! n = Some room → P room.
Proof.
  intros Hnew Hstep actions.
  induction actions as [|a actions IH]; intros gameRooms Hall; [done|].
  unfold serve; simpl. apply IH. intros n room'
    [Hsame|[(body & room & Hbody & Hroom & Hs)|(sid & pn & pc & _ & ->)]]%handle_lookup_inv;
    eauto.
Qed.

(** A reflexive, transitive relation that every handler body respects
    relates each room to what a sequence of events makes of it; the room is
    still there. *)
Lemma serve_relation (R : Room.t → Room.t → Prop) :
  (∀ room, R room room) →
  (∀ r1 r2 r3, R r1 r2 → R r2 r3 → R r1 r3) →
  (∀ a body room room', bodyOf a = Some body →
     body room = Updated room' ∨ body room = Threw room' → R room room') →
  ∀ actions (gameRooms : gmap string Room.t) n room,
    gameRooms !! n = Some room →
    ∃ room', serve actions gameRooms !! n = Some room' ∧ R room room'.
Proof.
  intros Hrefl Htrans Hstep actions.
  induction actions as [|a actions IH]; intros gameRooms n room Hn; [by eauto|].
  destruct (handle_lookup a gameRooms n room Hn)
    as (r1 & Hr1 & [->|(body & Hbody & Hs)]); unfold serve; simpl.
  - by apply IH.
  - destruct (IH _ _ _ Hr1) as (r2 & Hr2 & HR). exists r2. split; [done|].
    eapply Htrans; [|done]. by eapply Hstep.
Qed.

Lemma stepped_refl p : stepped p p.
Proof. by repeat split. Qed.

Lemma Forall2_stepped_refl ps : Forall2 stepped ps ps.
Proof. apply Forall_Forall2_diag, Forall_forall. intros p _. apply stepped_refl. Qed.

Lemma Forall2_stepped_insert ps i p p' :
  ps !! i = Some p → stepped p p' → Forall2 stepped ps (<[i := p']> ps).
Proof.
  intros Hi Hp. rewrite <- (list_insert_id ps i p Hi) at 1.
  apply Forall2_insert; [apply Forall2_stepped_refl|done].
Qed.

Lemma Forall2_stepped_trans ps1 ps2 ps3 :
  Forall2 stepped ps1 ps2 → Forall2 stepped ps2 ps3 → Forall2 stepped ps1 ps3.
Proof.
  intros H12. revert ps3. induction H12 as [|p1 p2 ps1 ps2 Hp _ IH]; intros ps3 H23.
  - by apply Forall2_nil_inv_l in H23 as ->.
  - apply Forall2_cons_inv_l in H23 as (p3 & ps3' & Hp' & H23' & ->).
    constructor; [|by apply IH].
    destruct Hp as [(?&?&?&?&?) ?], Hp' as [(?&?&?&?&?) ?].
    repeat split; try congruence. auto.
Qed.

Lemma dealHands_stepped players cards : Forall2 stepped players (dealHands players cards).
Proof.
  revert cards. induction players as [|p ps IH]; intros cards; simpl; constructor; auto.
  by repeat split.
Qed.

(** What any handler body does to the players. *)
Lemma body_players a body room room' :
  bodyOf a = Some body →
  body room = Updated room' ∨ body room = Threw room' →
  ∃ kept added,
    Room.players room' = kept ++ added ∧
    Forall2 stepped (Room.players room) kept ∧
    Forall (λ p, truthy (Player.canClaimTurn p) = false) added.
Proof.
  intros Hbody Hstep. destruct a; simplify_eq/=.
  - unfold joinRoomBody in Hstep.
    destruct (lengthAtLeast _ _); destruct Hstep as [[= <-]|[=]]. simpl.
    eexists _, _. split; [done|]. split; [apply Forall2_stepped_refl|].
    by repeat constructor.
  - unfold joinTeamBody in Hstep.
    destruct (list_find _ _) as [[i player]|] eqn:Hf; destruct Hstep as [[= <-]|[=]].
    apply list_find_lookup in Hf as [Hf _]. simpl.
    eexists _, []. rewrite app_nil_r. split; [done|]. split; [|done].
    apply (Forall2_stepped_insert _ _ _ _ Hf). by repeat split.
  - exists (Room.players room'), []. rewrite app_nil_r. split; [done|]. split; [|done].
    destruct Hstep as [Hup|Hthrew].
    + apply startGameBody_Updated in Hup as (_ & _ & _ & first & _ & ->). simpl.
      apply dealHands_stepped.
    + revert Hthrew. unfold startGameBody.
      generalize (createAndShuffleDeck random) as cards. intros cards.
      repeat (case_bool_decide; simpl; [|done]).
      destruct (dealHands _ _ !! 0); [done|]. intros [= <-]. simpl.
      apply dealHands_stepped.
  - exists (Room.players room'), []. rewrite app_nil_r. split; [done|]. split; [|done].
    destruct Hstep as [Hup|Hthrew];
      [|by destruct (requestCardBody_not_Threw _ _ _ _ _ _ _ Hthrew)].
    apply requestCardBody_Updated in Hup
      as (ri & rq & ti & tg & Hr & Ht & _ & _ & [(k & card & _ & ->)|[_ ->]]);
      simpl; [|apply Forall2_stepped_refl].
    apply list_find_lookup in Hr as [Hr _]. apply list_find_lookup in Ht as [Ht _].
    eapply Forall2_stepped_trans.
    + apply (Forall2_stepped_insert _ ti tg (Player.setHand tg (delete k (Player.hand tg))) Ht).
      by repeat split.
    + destruct (decide (ri = ti)) as [->|Hne].
      * apply (Forall2_stepped_insert _ ti (Player.setHand tg (delete k (Player.hand tg)))).
        { apply list_lookup_insert_eq. by eapply lookup_lt_Some. }
        simplify_eq. by repeat split.
      * apply (Forall2_stepped_insert _ ri rq); [by rewrite list_lookup_insert_ne|].
        by repeat split.
  - exists (Room.players room'), []. rewrite app_nil_r. split; [done|]. split; [|done].
    unfold declareSetBody in Hstep.
    destruct (list_find _ _) as [[i dp]|]; [|by destruct Hstep].
    case_bool_decide; simpl in Hstep; [|by destruct Hstep].
    destruct (Room.capturedSets room) as [A B|entries].
    { destruct Hstep as [[=]|[= <-]]. apply Forall2_stepped_refl. }
    destruct (checkWinCondition _) as [w|].
    { destruct Hstep as [[= <-]|[=]]. apply Forall2_stepped_refl. }
    destruct (getNextPlayer _ _); destruct Hstep as [[= <-]|[= <-]];
      apply Forall2_stepped_refl.
  - exists (Room.players room'), []. rewrite app_nil_r. split; [done|]. split; [|done].
    unfold claimTurnBody in Hstep.
    destruct (list_find _ _) as [[i player]|] eqn:Hf; [|by destruct Hstep].
    destruct (truthy _); destruct Hstep as [[= <-]|[=]]. simpl.
    apply list_find_lookup in Hf as [Hf _].
    apply (Forall2_stepped_insert _ _ _ _ Hf). by repeat split.
Qed.

Lemma body_playersStepped a body room room' :
  bodyOf a = Some body →
  body room = Updated room' ∨ body room = Threw room' →
  playersStepped (Room.players room) (Room.players room').
Proof. apply body_players. Qed.

Lemma Forall2_stepped_noClaim ps kept :
  Forall2 stepped ps kept →
  Forall (λ p, truthy (Player.canClaimTurn p) = false) ps →
  Forall (λ p, truthy (Player.canClaimTurn p) = false) kept.
Proof.
  induction 1 as [|p p' ps kept [_ Hflag] _ IH]; intros Hps; [done|].
  apply Forall_cons in Hps as [Hp Hps]. constructor; [|by apply IH].
  destruct (truthy (Player.canClaimTurn p')) eqn:Hp'; [|done].
  rewrite Hflag in Hp; done.
Qed.

Lemma playersStepped_refl ps : playersStepped ps ps.
Proof.
  exists ps, []. rewrite app_nil_r. split; [done|]. split; [apply Forall2_stepped_refl|done].
Qed.

Lemma playersStepped_trans ps1 ps2 ps3 :
  playersStepped ps1 ps2 → playersStepped ps2 ps3 → playersStepped ps1 ps3.
Proof.
  intros (k1 & a1 & -> & H1 & Hf1) (k2 & a2 & -> & H2 & Hf2).
  apply Forall2_app_inv_l in H2 as (k2a & k2b & Ha & Hb & ->).
  exists k2a, (k2b ++ a2). rewrite (assoc_L (++)). split; [done|].
  split; [by eapply Forall2_stepped_trans|].
  apply Forall_app. split; [|done]. by eapply Forall2_stepped_noClaim.
Qed.

Lemma playersStepped_lookup ps ps' i p :
  playersStepped ps ps' → ps !! i = Some p →
  ∃ p', ps' !! i = Some p' ∧ stepped p p'.
Proof.
  intros (kept & added & -> & Hkept & _) Hi.
  destruct (Forall2_lookup_l _ _ _ _ _ Hkept Hi) as (p' & Hp' & Hs).
  exists p'. split; [|done]. by apply lookup_app_l_Some.
Qed.

Lemma playersStepped_noClaim ps ps' :
  playersStepped ps ps' →
  Forall (λ p, truthy (Player.canClaimTurn p) = false) ps →
  Forall (λ p, truthy (Player.canClaimTurn p) = false) ps'.
Proof.
  intros (kept & added & -> & Hkept & Hadded) Hps.
  apply Forall_app. split; [|done]. by eapply Forall2_stepped_noClaim.
Qed.

(** X3.  No sequence of events removes a room, or removes, reorders or
    renames a player: each player a room had is still at the same index with
    the same id, name, [socketId], [isHost] and [connected]; players are
    only ever added at the end. *)
Theorem players_never_removed actions (gameRooms : gmap string Room.t) n room :
  gameRooms !! n = Some room →
  ∃ room', serve actions gameRooms !! n = Some room' ∧
           playersKept (Room.players room) (Room.players room').
Proof.
  intros Hn.
  destruct (serve_relation
              (λ r r', playersStepped (Room.players r) (Room.players r'))
              (λ r, playersStepped_refl _)
              (λ r1 r2 r3, playersStepped_trans _ _ _)
              body_playersStepped actions gameRooms n room Hn)
    as (room' & Hroom' & kept & added & Heq & Hkept & _).
  exists room'. split; [done|]. exists kept, added. split; [done|].
  eapply Forall2_impl; [done|]. by intros p p' [? _].
Qed.

Lemma players_never_removed_witness :
  dealtRooms !! "r1" = Some dealtTable ∧
  ∃ room', serve openingRequests dealtRooms !! "r1" = Some room' ∧
           playersKept (Room.players dealtTable) (Room.players room').
Proof.
  assert (H : dealtRooms !! "r1" = Some dealtTable) by (vm_compute; reflexivity).
  split; [exact H|]. exact (players_never_removed openingRequests dealtRooms "r1" dealtTable H).
Defined.

(** X4.  No handler ever sets [canClaimTurn] to true: if no player of
    any room may claim the turn, then after any sequence of events every
    claimTurn is still answered with an error and changes nothing. *)
Theorem claimTurn_never_enabled actions (gameRooms : gmap string Room.t) sid roomName :
  (∀ n room, gameRooms !! n = Some room → noClaim room) →
  (∀ n room, serve actions gameRooms !! n = Some room → noClaim room) ∧
  ∃ m, claimTurn sid roomName (serve actions gameRooms)
       = (serve actions gameRooms, error m).
Proof.
  intros Hall.
  assert (Hinv : ∀ n room, serve actions gameRooms !! n = Some room → noClaim room).
  { apply (serve_invariant noClaim); [by repeat constructor| |done].
    intros a body room room' Hbody Hroom Hstep. unfold noClaim in *.
    eapply playersStepped_noClaim; [|done]. by eapply body_playersStepped. }
  split; [done|]. unfold claimTurn, withRoom.
  destruct (serve actions gameRooms !! roomName) as [room|] eqn:Hroom; [|by eauto].
  unfold claimTurnBody.
  destruct (list_find _ _) as [[i player]|] eqn:Hf; [|by eauto].
  apply list_find_lookup in Hf as [Hf _].
  rewrite (Forall_lookup_1 _ _ _ _ (Hinv _ _ Hroom) Hf). simpl. by eauto.
Qed.

Lemma claimTurn_never_enabled_witness :
  (∀ n room, dealtRooms !! n = Some room → noClaim room) ∧
  ∃ m, claimTurn "s4" "r1" (serve openingRequests dealtRooms)
       = (serve openingRequests dealtRooms, error m).
Proof.
  assert (H : ∀ n room, dealtRooms !! n = Some room → noClaim room).
  { intros n room Hn. unfold dealtRooms in Hn.
    apply lookup_singleton_Some in Hn as [_ <-].
    apply (bool_decide_unpack _). vm_compute. reflexivity. }
  split; [exact H|].
  exact (proj2 (claimTurn_never_enabled openingRequests dealtRooms "s4" "r1" H)).
Defined.

(** After a handler body the turn is where it was, or with one of the
    players the room had. *)
Lemma body_turn a body room room' :
  bodyOf a = Some body →
  body room = Updated room' ∨ body room = Threw room' →
  Room.currentTurnPlayerId room' = Room.currentTurnPlayerId room ∨
  ∃ i p, Room.players room !! i = Some p ∧
         Room.currentTurnPlayerId room' = Some (Player.id p).
Proof.
  intros Hbody Hstep. destruct a; simplify_eq/=.
  - left. unfold joinRoomBody in Hstep.
    destruct (lengthAtLeast _ _); by destruct Hstep as [[= <-]|[=]].
  - left. unfold joinTeamBody in Hstep.
    destruct (list_find _ _) as [[i player]|]; by destruct Hstep as [[= <-]|[=]].
  - destruct Hstep as [Hup|Hthrew].
    + apply startGameBody_Updated in Hup as (_ & _ & _ & first & Hfirst & ->).
      right. by exists 0, first.
    + left. revert Hthrew. unfold startGameBody.
      generalize (createAndShuffleDeck random) as cards. intros cards.
      repeat (case_bool_decide; simpl; [|done]).
      destruct (dealHands _ _ !! 0); [done|]. by intros [= <-].
  - destruct Hstep as [Hup|Hthrew];
      [|by destruct (requestCardBody_not_Threw _ _ _ _ _ _ _ Hthrew)].
    apply requestCardBody_Updated in Hup
      as (ri & rq & ti & tg & _ & Ht & _ & _ & Hcase).
    apply list_find_lookup in Ht as [Ht _]. right. exists ti, tg. split; [done|].
    by destruct Hcase as [(k & card & _ & ->)|[_ ->]].
  - unfold declareSetBody in Hstep.
    destruct (list_find _ _) as [[i dp]|]; [|by destruct Hstep].
    case_bool_decide; simpl in Hstep; [|by destruct Hstep].
    destruct (Room.capturedSets room) as [A B|entries];
      [left; by destruct Hstep as [[=]|[= <-]]|].
    destruct (checkWinCondition _) as [w|];
      [left; by destruct Hstep as [[= <-]|[=]]|].
    destruct (getNextPlayer _ _) as [next|] eqn:Hnext;
      [|left; by destruct Hstep as [[=]|[= <-]]].
    right. unfold getNextPlayer in Hnext.
    destruct Hstep as [[= <-]|[=]]. eauto.
  - unfold claimTurnBody in Hstep.
    destruct (list_find _ _) as [[i player]|] eqn:Hf; [|by destruct Hstep].
    apply list_find_lookup in Hf as [Hf _].
    destruct (truthy _); destruct Hstep as [[= <-]|[=]]. right. eauto.
Qed.

(** X5.  The turn holder is always a player of the room: if in every
    room [currentTurnPlayerId], when set, is the id of one of the room's
    players, the same is true after any sequence of events. *)
Theorem turn_holder_stays_in_room actions (gameRooms : gmap string Room.t) :
  (∀ n room, gameRooms !! n = Some room → turnHolderInRoom room) →
  ∀ n room, serve actions gameRooms !! n = Some room → turnHolderInRoom room.
Proof.
  apply (serve_invariant turnHolderInRoom); [done|].
  intros a body room room' Hbody Hroom Hstep t Ht.
  pose proof (body_playersStepped a body room room' Hbody Hstep) as Hps.
  destruct (body_turn a body room room' Hbody Hstep) as [Hsame|(i & p & Hp & Hnew)].
  - rewrite Hsame in Ht. destruct (Hroom t Ht) as (i & p & Hp & <-).
    destruct (playersStepped_lookup _ _ _ _ Hps Hp) as (p' & Hp' & [(Hid & _) _]).
    eauto.
  - rewrite Hnew in Ht. simplify_eq.
    destruct (playersStepped_lookup _ _ _ _ Hps Hp) as (p' & Hp' & [(Hid & _) _]).
    eauto.
Qed.

Lemma turn_holder_stays_in_room_witness :
  (∀ n room, tableRooms !! n = Some room → turnHolderInRoom room) ∧
  ∃ room, serve (ActStartGame half "s0" "r1" :: openingRequests) tableRooms !! "r1"
            = Some room ∧
          turnHolderInRoom room.
Proof.
  assert (H : ∀ n room, tableRooms !! n = Some room → turnHolderInRoom room).
  { intros n room Hn. unfold tableRooms in Hn.
    apply lookup_singleton_Some in Hn as [_ <-]. intros t Ht. discriminate Ht. }
  split; [exact H|].
  destruct (serve (ActStartGame half "s0" "r1" :: openingRequests) tableRooms !! "r1")
    as [room|] eqn:Hroom; [|by vm_compute in Hroom].
  exists room. split; [reflexivity|].
  exact (turn_holder_stays_in_room _ tableRooms H "r1" room Hroom).
Defined.

(** X6.  In a server that started with no rooms, startGame, requestCard,
    declareSet and claimTurn are answered with an error and change nothing,
    whatever events came before: only createRoom, joinRoom and joinTeam ever
    change a room. *)
Theorem game_actions_always_rejected actions a :
  isGameAction a →
  ∃ m, handle a (serve actions ∅) = (serve actions ∅, error m).
Proof.
  intros Ha. destruct a; try done; simpl.
  - destruct (startGame_after_createRoom actions random socketId roomName); eauto.
  - unfold requestCard, withRoom.
    destruct (serve actions ∅ !! roomName) as [room|] eqn:Hroom; [|by eauto].
    apply served_rooms_AsCreated in Hroom as [_ _ Hturn _ _ _ _ _].
    unfold requestCardBody. rewrite Hturn.
    destruct (list_find (hasId socketId) _) as [[ri rq]|]; [|by eauto].
    destruct (list_find (hasId targetPlayerId) _) as [[ti tg]|]; by eauto.
  - unfold declareSet, withRoom.
    destruct (serve actions ∅ !! roomName) as [room|] eqn:Hroom; [|by eauto].
    apply served_rooms_AsCreated in Hroom as [_ _ Hturn _ _ _ _ _].
    unfold declareSetBody. rewrite Hturn.
    destruct (list_find _ _) as [[i dp]|]; by eauto.
  - unfold claimTurn, withRoom.
    destruct (serve actions ∅ !! roomName) as [room|] eqn:Hroom; [|by eauto].
    apply served_rooms_AsCreated in Hroom as [_ _ _ _ _ _ _ Hclaim].
    unfold claimTurnBody.
    destruct (list_find _ _) as [[i player]|] eqn:Hf; [|by eauto].
    apply list_find_lookup in Hf as [Hf _].
    rewrite (Forall_lookup_1 _ _ _ _ Hclaim Hf). by eauto.
Qed.

Lemma game_actions_always_rejected_witness :
  isGameAction (ActDeclareSet "s0" "r1" "hearts" "lower") ∧
  ∃ m, handle (ActDeclareSet "s0" "r1" "hearts" "lower") lobby = (lobby, error m).
Proof.
  split; [exact I|].
  exact (game_actions_always_rejected lobbyActions
           (ActDeclareSet "s0" "r1" "hearts" "lower") I).
Defined.

(** ** createRoom, joinRoom, joinTeam, claimTurn *)

(** X7.  [createRoom] creates a room exactly when both names are
    non-empty and the room name is free.  It never replaces or changes a
    room that exists, and once it has created a room, every further
    createRoom under that name fails and changes nothing: with 'Room already
    exists' when a player name is given, with 'Player name and room name
    are required' when it is empty. *)
Theorem createRoom_only_fresh_names sid pn rn pc (gameRooms : gmap string Room.t) :
  ((createRoom sid pn rn pc gameRooms).2 = roomCreated rn sid ↔
     pn ≠ "" ∧ rn ≠ "" ∧ gameRooms !! rn = None) ∧
  (∀ n room, gameRooms !! n = Some room →
             (createRoom sid pn rn pc gameRooms).1 !! n = Some room) ∧
  ((createRoom sid pn rn pc gameRooms).2 = roomCreated rn sid →
   (createRoom sid pn rn pc gameRooms).1 !! rn = Some (newRoom sid pn rn pc) ∧
   ∀ sid' pn' pc',
     createRoom sid' pn' rn pc' (createRoom sid pn rn pc gameRooms).1
       = ((createRoom sid pn rn pc gameRooms).1,
          errorCreateRoom (if bool_decide (pn' = "")
                           then "Player name and room name are required"
                           else "Room already exists"))).
Proof.
  unfold createRoom.
  destruct (decide (pn = "")) as [->|Hpn]; [by split_and!; [split; [|intros [? _]]|..]|].
  destruct (decide (rn = "")) as [->|Hrn].
  { rewrite orb_true_r. by split_and!; [split; [|intros (_ & ? & _)]|..]. }
  rewrite (bool_decide_eq_false_2 (pn = "")), (bool_decide_eq_false_2 (rn = "")) by done.
  simpl. case_bool_decide as Hhas; simpl.
  - split_and!; [split; [done|]|done|done].
    intros (_ & _ & Hnone). rewrite Hnone in Hhas. by destruct Hhas.
  - apply eq_None_not_Some in Hhas. split_and!.
    + done.
    + intros n room Hn. rewrite lookup_insert_ne; [done|]. congruence.
    + intros _. split; [by rewrite lookup_insert_eq|].
      intros sid' pn' pc'. case_bool_decide as Hpn'; simpl; [done|].
      rewrite bool_decide_eq_true_2; [done|]. by rewrite lookup_insert_eq.
Qed.

(** [find] after an in-place update of the found player that keeps the id. *)
Lemma list_find_hasId_insert sid (ps : list Player.t) i p p' :
  list_find (hasId sid) ps = Some (i, p) → Player.id p' = Player.id p →
  list_find (hasId sid) (<[i := p']> ps) = Some (i, p').
Proof.
  intros (Hi & Hid & Hleast)%list_find_Some Heq. apply list_find_Some.
  split_and!.
  - apply list_lookup_insert_eq. by eapply lookup_lt_Some.
  - unfold hasId in *. congruence.
  - intros j q Hj Hlt. rewrite list_lookup_insert_ne in Hj by lia. by eapply Hleast.
Qed.

(** X8.  [joinRoom] does not look for the socket among the players: a
    socket that is already in the room and joins again is added a second
    time, and the new record is never found, because every handler takes
    the first player with the socket's id, which is still the old one. *)
Theorem joinRoom_again_is_shadowed sid pn rn (gameRooms gameRooms' : gmap string Room.t)
    room i p :
  gameRooms !! rn = Some room →
  list_find (hasId sid) (Room.players room) = Some (i, p) →
  joinRoom sid pn rn gameRooms = (gameRooms', joinedRoom rn sid) →
  ∃ room',
    gameRooms' !! rn = Some room' ∧
    length (Room.players room') = S (length (Room.players room)) ∧
    length (filter (hasId sid) (Room.players room'))
      = S (length (filter (hasId sid) (Room.players room))) ∧
    list_find (hasId sid) (Room.players room') = Some (i, p).
Proof.
  intros Hroom Hf. unfold joinRoom, withRoom. rewrite Hroom. unfold joinRoomBody.
  destruct (lengthAtLeast _ _); [done|]. intros [= <-].
  eexists. split; [by rewrite lookup_insert_eq|]. simpl.
  split; [rewrite length_app; simpl; lia|].
  split.
  - rewrite filter_app, length_app.
    rewrite (filter_cons_True (hasId sid)) by done. simpl. lia.
  - by apply list_find_app_l.
Qed.

Lemma joinRoom_again_is_shadowed_witness :
  lobby !! "r1" = Some lobbyRoom ∧
  list_find (hasId "s0") (Room.players lobbyRoom) = Some (0, lobbyHost) ∧
  ∃ room',
    (joinRoom "s0" "again" "r1" lobby).1 !! "r1" = Some room' ∧
    length (Room.players room') = S (length (Room.players lobbyRoom)) ∧
    list_find (hasId "s0") (Room.players room') = Some (0, lobbyHost).
Proof.
  assert (Hroom : lobby !! "r1" = Some lobbyRoom) by (vm_compute; reflexivity).
  assert (Hf : list_find (hasId "s0") (Room.players lobbyRoom) = Some (0, lobbyHost))
    by (vm_compute; reflexivity).
  assert (Hjoin : joinRoom "s0" "again" "r1" lobby
                  = ((joinRoom "s0" "again" "r1" lobby).1, joinedRoom "r1" "s0"))
    by (vm_compute; reflexivity).
  split; [exact Hroom|]. split; [exact Hf|].
  destruct (joinRoom_again_is_shadowed "s0" "again" "r1" lobby _ lobbyRoom 0 lobbyHost
              Hroom Hf Hjoin) as (room' & Hroom' & Hlen & _ & Hfind).
  exists room'. split; [exact Hroom'|]. split; [exact Hlen|exact Hfind].
Defined.

Lemma setTeam_setTeam p t1 t2 : Player.setTeam (Player.setTeam p t1) t2 = Player.setTeam p t2.
Proof. by destruct p. Qed.

Lemma joinTeam_found sid rn tm (gameRooms : gmap string Room.t) room i p :
  gameRooms !! rn = Some room →
  list_find (hasId sid) (Room.players room) = Some (i, p) →
  (joinTeam sid rn tm gameRooms).1
    = <[rn := Room.setPlayers room (<[i := Player.setTeam p tm]> (Room.players room))]>
        gameRooms.
Proof.
  intros Hroom Hf. unfold joinTeam, withRoom, joinTeamBody. by rewrite Hroom, Hf.
Qed.

(** X9.  [joinTeam] overwrites: choosing a team and then another leaves
    the rooms exactly as choosing the second team at once; in particular
    choosing the same team twice is choosing it once.  Nothing limits how
    often, or in which state of the game, a player changes team. *)
Theorem joinTeam_last_wins sid rn t1 t2 (gameRooms : gmap string Room.t) :
  (joinTeam sid rn t2 (joinTeam sid rn t1 gameRooms).1).1 = (joinTeam sid rn t2 gameRooms).1.
Proof.
  destruct (gameRooms !! rn) as [room|] eqn:Hroom.
  - destruct (list_find (hasId sid) (Room.players room)) as [[i p]|] eqn:Hf.
    + rewrite (joinTeam_found sid rn t1 gameRooms room i p Hroom Hf).
      rewrite (joinTeam_found sid rn t2 gameRooms room i p Hroom Hf).
      erewrite (joinTeam_found sid rn t2 _ _ i (Player.setTeam p t1));
        [|by rewrite lookup_insert_eq|by apply (list_find_hasId_insert sid _ i p)].
      simpl. by rewrite insert_insert_eq, list_insert_insert_eq, setTeam_setTeam.
    + assert (H : ∀ tm, (joinTeam sid rn tm gameRooms).1 = gameRooms).
      { intros tm. unfold joinTeam, withRoom, joinTeamBody. by rewrite Hroom, Hf. }
      by rewrite !H.
  - assert (H : ∀ tm, (joinTeam sid rn tm gameRooms).1 = gameRooms).
    { intros tm. unfold joinTeam, withRoom. by rewrite Hroom. }
    by rewrite !H.
Qed.

(** X10.  A claim is used up by claiming: when [claimTurn] is accepted
    the claimant holds the turn, and the same socket claiming again at once
    is answered CannotClaimTurn. *)
Theorem claimTurn_once sid rn (gameRooms gameRooms' : gmap string Room.t) room' :
  claimTurn sid rn gameRooms = (gameRooms', gameUpdate room') →
  Room.currentTurnPlayerId room' = Some sid ∧
  claimTurn sid rn gameRooms' = (gameRooms', error CannotClaimTurn).
Proof.
  intros (room & Hroom & Hbody & ->)%withRoom_gameUpdate.
  unfold claimTurnBody in Hbody.
  destruct (list_find (hasId sid) (Room.players room)) as [[i p]|] eqn:Hf; [|done].
  destruct (truthy (Player.canClaimTurn p)); [|done]. simpl in Hbody.
  injection Hbody as <-.
  pose proof Hf as [_ Hid]%list_find_lookup. unfold hasId in Hid.
  split; [by rewrite <- Hid|].
  unfold claimTurn, withRoom. rewrite lookup_insert_eq. unfold claimTurnBody. simpl.
  by rewrite (list_find_hasId_insert sid _ i p (Player.setCanClaimTurn p (Some false)) Hf).
Qed.

Lemma claimTurn_once_witness :
  claimTurn "b" "d" claimRooms
    = ((claimTurn "b" "d" claimRooms).1,
       gameUpdate (Room.setCurrentTurnPlayerId duelPlaying (Some "b"))) ∧
  claimTurn "b" "d" (claimTurn "b" "d" claimRooms).1
    = ((claimTurn "b" "d" claimRooms).1, error CannotClaimTurn).
Proof.
  assert (H : claimTurn "b" "d" claimRooms
    = ((claimTurn "b" "d" claimRooms).1,
       gameUpdate (Room.setCurrentTurnPlayerId duelPlaying (Some "b"))))
    by (vm_compute; reflexivity).
  split; [exact H|]. exact (proj2 (claimTurn_once _ _ _ _ _ H)).
Defined.

(** ** startGame and the deal *)

(** X11.  [startGame] tests, in this order: the socket is [adminId]
    (else OnlyAdmin), the number of players is [playerCount] (else
    RoomNotFull), as many players are on red as on blue (else
    TeamsUnbalanced).  Nothing else is tested: players on no team or on any
    other team do not count, and the state of the game does not matter.  A
    room that passes with no player in it makes the handler throw; every
    other room that passes is started. *)
Theorem startGame_tests random sid rn (gameRooms : gmap string Room.t) room :
  gameRooms !! rn = Some room →
  (Room.adminId room ≠ Some sid →
     startGame random sid rn gameRooms = (gameRooms, error OnlyAdmin)) ∧
  (Room.adminId room = Some sid →
   Room.playerCount room ≠ Some (length (Room.players room)) →
     startGame random sid rn gameRooms = (gameRooms, error RoomNotFull)) ∧
  (Room.adminId room = Some sid →
   Room.playerCount room = Some (length (Room.players room)) →
   length (filter (onTeam (Some "red")) (Room.players room))
     ≠ length (filter (onTeam (Some "blue")) (Room.players room)) →
     startGame random sid rn gameRooms = (gameRooms, error TeamsUnbalanced)) ∧
  (Room.adminId room = Some sid →
   Room.playerCount room = Some (length (Room.players room)) →
   length (filter (onTeam (Some "red")) (Room.players room))
     = length (filter (onTeam (Some "blue")) (Room.players room)) →
     (Room.players room = [] →
        startGame random sid rn gameRooms = (<[rn := room]> gameRooms, throwsTypeError)) ∧
     (Room.players room ≠ [] →
        ∃ room', startGame random sid rn gameRooms
                   = (<[rn := room']> gameRooms, gameStarted room') ∧
                 Room.gameStatus room' = Some "playing")).
Proof.
  intros Hroom. unfold startGame. rewrite (withRoom_present _ _ _ _ _ Hroom).
  unfold startGameBody. generalize (createAndShuffleDeck random) as cards. intros cards.
  split_and!.
  - intros Had. rewrite bool_decide_eq_false_2; [done|congruence].
  - intros Had Hpc. rewrite bool_decide_eq_true_2 by done. simpl.
    rewrite bool_decide_eq_false_2; [done|congruence].
  - intros Had Hpc Hbal. rewrite !bool_decide_eq_true_2 by done. simpl.
    by rewrite bool_decide_eq_false_2.
  - intros Had Hpc Hbal. rewrite !bool_decide_eq_true_2 by done. simpl.
    split.
    + intros Hps. rewrite Hps. simpl. by destruct room; simplify_eq/=.
    + intros Hps. destruct (Room.players room) as [|first rest] eqn:Hp; [done|].
      simpl. by eexists.
Qed.

Lemma startGame_tests_witness :
  tableRooms !! "r1" = Some table ∧
  Room.adminId table ≠ Some "s1" ∧
  startGame half "s1" "r1" tableRooms = (tableRooms, error OnlyAdmin).
Proof.
  assert (H : tableRooms !! "r1" = Some table) by (vm_compute; reflexivity).
  assert (Had : Room.adminId table ≠ Some "s1") by discriminate.
  split; [exact H|]. split; [exact Had|].
  exact (proj1 (startGame_tests half "s1" "r1" tableRooms table H) Had).
Defined.

Lemma createAndShuffleDeck_length random : length (createAndShuffleDeck random) = 48.
Proof. by rewrite createAndShuffleDeck_Permutation. Qed.

Lemma createAndShuffleDeck_NoDup random : NoDup (createAndShuffleDeck random).
Proof. rewrite createAndShuffleDeck_Permutation. apply specDeck_NoDup. Qed.

(** X12.  The deal for any number of players.  A started game gives the
    player at index [i] the cards at positions [6i] to [6i+5] of the shuffled
    deck, whatever the player held before: the first 8 players get 6 cards
    each, any later player gets an empty hand, and with fewer than 8
    players the rest of the deck is in nobody's hand.  No card is dealt
    twice; [capturedSets] and [winner] are kept. *)
Theorem startGame_deals_by_position random sid rn
    (gameRooms gameRooms' : gmap string Room.t) room' :
  startGame random sid rn gameRooms = (gameRooms', gameStarted room') →
  (∀ i p, Room.players room' !! i = Some p →
     Player.hand p = take 6 (drop (6 * i) (createAndShuffleDeck random)) ∧
     length (Player.hand p) = 6 `min` (48 - 6 * i)) ∧
  allHands room' = take (6 * length (Room.players room')) (createAndShuffleDeck random) ∧
  length (allHands room') = 48 `min` (6 * length (Room.players room')) ∧
  NoDup (allHands room') ∧
  ∃ room, gameRooms !! rn = Some room ∧
          Room.capturedSets room' = Room.capturedSets room ∧
          Room.winner room' = Room.winner room.
Proof.
  intros (room & Hroom & Hbody & ->)%startGame_gameStarted.
  apply startGameBody_Updated in Hbody as (_ & _ & _ & first & _ & Heq).
  pose proof (createAndShuffleDeck_length random) as Hlen.
  assert (Hps : Room.players room'
                = dealHands (Room.players room) (createAndShuffleDeck random))
    by (by rewrite Heq).
  assert (Hall : allHands room'
                 = take (6 * length (Room.players room')) (createAndShuffleDeck random)).
  { unfold allHands. by rewrite Hps, dealHands_allHands, dealHands_length. }
  split_and!.
  - intros i p Hp. rewrite Hps in Hp. rewrite (dealHands_hand _ _ _ _ Hp).
    split; [done|]. rewrite length_take, length_drop. lia.
  - done.
  - rewrite Hall, length_take. lia.
  - rewrite Hall. pose proof (createAndShuffleDeck_NoDup random) as Hnd.
    rewrite <- (take_drop (6 * length (Room.players room'))) in Hnd.
    by apply NoDup_app in Hnd as [Hnd _].
  - exists room. by rewrite Heq.
Qed.

Lemma startGame_deals_by_position_witness :
  startGame half "s0" "r1" tableRooms = (dealtRooms, gameStarted dealtTable) ∧
  length (allHands dealtTable) = 48 `min` (6 * length (Room.players dealtTable)).
Proof.
  assert (H : startGame half "s0" "r1" tableRooms = (dealtRooms, gameStarted dealtTable))
    by (vm_compute; reflexivity).
  split; [exact H|].
  exact (proj1 (proj2 (proj2 (startGame_deals_by_position _ _ _ _ _ _ H)))).
Defined.

(** ** transferCard and teamHasCompleteSet *)

(** X13.  [transferCard] returns true exactly when the giver holds the
    card.  It then takes the first copy out of the giver's hand, which gets
    one shorter, and puts that card at the end of the receiver's hand;
    otherwise both players are unchanged.  Either way the two hands together
    hold the same cards as before, and nothing but the hands is touched. *)
Theorem transferCard_moves_one fromPlayer toPlayer s r st b fromPlayer' toPlayer' :
  transferCard fromPlayer toPlayer s r st = (b, fromPlayer', toPlayer') →
  (b = true ↔ Exists (isCard s r st) (Player.hand fromPlayer)) ∧
  (b = false → fromPlayer' = fromPlayer ∧ toPlayer' = toPlayer) ∧
  (b = true →
     S (length (Player.hand fromPlayer')) = length (Player.hand fromPlayer) ∧
     Player.hand toPlayer' = Player.hand toPlayer ++ [mkCard s r st]) ∧
  Player.hand fromPlayer' ++ Player.hand toPlayer'
    ≡ₚ Player.hand fromPlayer ++ Player.hand toPlayer ∧
  Player.setHand fromPlayer' (Player.hand fromPlayer) = fromPlayer ∧
  Player.setHand toPlayer' (Player.hand toPlayer) = toPlayer.
Proof.
  unfold transferCard.
  destruct (list_find _ _) as [[k card]|] eqn:Hf; intros [= <- <- <-].
  - pose proof Hf as [Hk (Hs & Hr & Hst)]%list_find_lookup.
    assert (card = mkCard s r st) as -> by (destruct card; simpl in *; congruence).
    split_and!; simpl.
    + split; [|done]. intros _. apply Exists_exists. exists (mkCard s r st).
      split; [by eapply list_elem_of_lookup_2|done].
    + done.
    + intros _. split; [|done]. rewrite length_delete by eauto.
      apply lookup_lt_Some in Hk. lia.
    + rewrite (delete_Permutation _ _ _ Hk) at 2. solve_Permutation.
    + by destruct fromPlayer.
    + by destruct toPlayer.
  - apply list_find_None in Hf. split_and!; simpl; try done.
    + split; [done|]. intros Hex. by apply Forall_Exists_neg in Hf.
    + by destruct fromPlayer.
    + by destruct toPlayer.
Qed.

Lemma transferCard_moves_one_witness :
  transferCard bob ann "hearts" "3" "lower"
    = (true, Player.setHand bob [mkCard "clubs" "8" "upper"],
       Player.setHand ann (Player.hand ann ++ [mkCard "hearts" "3" "lower"])) ∧
  Exists (isCard "hearts" "3" "lower") (Player.hand bob).
Proof.
  assert (H : transferCard bob ann "hearts" "3" "lower"
    = (true, Player.setHand bob [mkCard "clubs" "8" "upper"],
       Player.setHand ann (Player.hand ann ++ [mkCard "hearts" "3" "lower"])))
    by (vm_compute; reflexivity).
  split; [exact H|].
  exact (proj1 (proj1 (transferCard_moves_one _ _ _ _ _ _ _ _ H)) eq_refl).
Defined.

Lemma teamCards_elem players tm c :
  c ∈ concat (map Player.hand (filter (onTeam tm) players)) ↔
  ∃ i p, players !! i = Some p ∧ Player.team p = tm ∧ c ∈ Player.hand p.
Proof.
  change (map Player.hand (filter (onTeam tm) players))
    with (Player.hand <$> filter (onTeam tm) players).
  rewrite elem_of_concat. split.
  - intros (j & h & Hj & Hc).
    apply list_lookup_fmap_Some in Hj as (p & -> & Hp).
    apply list_elem_of_lookup_2, list_elem_of_filter in Hp as [Htm Hin].
    apply list_elem_of_lookup in Hin as [i Hi]. eauto.
  - intros (i & p & Hi & Htm & Hc).
    assert (Hin : p ∈ filter (onTeam tm) players).
    { apply list_elem_of_filter. split; [done|]. by eapply list_elem_of_lookup_2. }
    apply list_elem_of_lookup in Hin as [j Hj].
    exists j, (Player.hand p). split; [|done]. by rewrite list_lookup_fmap, Hj.
Qed.

Lemma teamHasCompleteSet_holds players tm s st r :
  teamHasCompleteSet players tm s st = true → r ∈ specRanks st →
  ∃ i p, players !! i = Some p ∧ Player.team p = tm ∧ mkCard s r st ∈ Player.hand p.
Proof.
  unfold teamHasCompleteSet, every, specRanks.
  rewrite bool_decide_eq_true, Forall_forall. intros H Hr.
  apply H, Exists_exists in Hr as (c & Hc & Hs & Hr' & Hst).
  apply teamCards_elem in Hc as (i & p & Hi & Htm & Hc).
  exists i, p. split_and!; [done..|].
  by replace (mkCard s r st) with c by (destruct c; simpl in *; congruence).
Qed.

(** X14.  [teamHasCompleteSet] is true exactly when, for each of the six
    ranks it checks, some player on the team holds the card of that suit,
    rank and set type.  The ranks are the lower ones for set type 'lower' and
    the upper ones for every other set type; players on other teams and
    other cards play no part. *)
Theorem teamHasCompleteSet_iff players tm s st :
  teamHasCompleteSet players tm s st = true ↔
  ∀ r, r ∈ specRanks st →
       ∃ i p, players !! i = Some p ∧ Player.team p = tm ∧ mkCard s r st ∈ Player.hand p.
Proof.
  split; [intros H r Hr; by eapply teamHasCompleteSet_holds|].
  unfold teamHasCompleteSet, every, specRanks.
  rewrite bool_decide_eq_true, Forall_forall. intros H r Hr.
  destruct (H r Hr) as (i & p & Hi & Htm & Hc).
  apply Exists_exists. exists (mkCard s r st). split; [|done].
  apply teamCards_elem. eauto.
Qed.

(** X15.  While no card is in two places, a set is complete for at most
    one team: if the hands of a room hold no card twice and one team holds
    all six ranks of a set, [teamHasCompleteSet] is false for every other
    team. *)
Theorem complete_set_one_team room tm1 tm2 s st :
  NoDup (allHands room) → tm1 ≠ tm2 →
  teamHasCompleteSet (Room.players room) tm1 s st = true →
  teamHasCompleteSet (Room.players room) tm2 s st = false.
Proof.
  intros Hnd Hne H1. apply not_true_is_false. intros H2.
  assert (∃ r, r ∈ specRanks st) as [r Hr].
  { unfold specRanks. case_bool_decide; eexists; apply list_elem_of_here. }
  destruct (teamHasCompleteSet_holds _ _ _ _ r H1 Hr) as (i & p & Hi & Hp & Hc).
  destruct (teamHasCompleteSet_holds _ _ _ _ r H2 Hr) as (j & q & Hj & Hq & Hd).
  assert (i = j) as ->.
  { apply (NoDup_concat_unique (Player.hand <$> Room.players room) i j
             (Player.hand p) (Player.hand q) (mkCard s r st) Hnd); [| |done..].
    - by rewrite list_lookup_fmap, Hi.
    - by rewrite list_lookup_fmap, Hj. }
  congruence.
Qed.

Lemma complete_set_one_team_witness :
  NoDup (allHands completeRoom) ∧ Some "red" ≠ Some "blue" ∧
  teamHasCompleteSet (Room.players completeRoom) (Some "red") "hearts" "lower" = true ∧
  teamHasCompleteSet (Room.players completeRoom) (Some "blue") "hearts" "lower" = false.
Proof.
  assert (H1 : NoDup (allHands completeRoom)) by (apply (bool_decide_unpack _); by vm_compute).
  assert (H2 : Some "red" ≠ Some "blue") by discriminate.
  assert (H3 : teamHasCompleteSet (Room.players completeRoom) (Some "red") "hearts" "lower"
               = true) by (vm_compute; reflexivity).
  split; [exact H1|]. split; [exact H2|]. split; [exact H3|].
  exact (complete_set_one_team completeRoom _ _ _ _ H1 H2 H3).
Defined.

(** ** getNextPlayer and the turn order *)

Lemma list_find_by_id (players : list Player.t) i p :
  NoDup (Player.id <$> players) → players !! i = Some p →
  list_find (hasId (Player.id p)) players = Some (i, p).
Proof.
  intros Hnd Hi. apply list_find_Some. split_and!; [done|done|].
  intros j q Hj Hlt Hq. unfold hasId in Hq.
  assert (j = i); [|lia].
  apply (NoDup_lookup _ j i (Player.id p) Hnd); rewrite list_lookup_fmap.
  - by rewrite Hj; simpl; rewrite Hq.
  - by rewrite Hi.
Qed.

Lemma getNextPlayer_found (players : list Player.t) sid i p :
  list_find (hasId sid) players = Some (i, p) →
  getNextPlayer sid players = players !! ((i + 1) `mod` length players) ∧
  is_Some (getNextPlayer sid players).
Proof.
  intros Hf. unfold getNextPlayer. rewrite Hf. split; [done|].
  apply list_find_lookup in Hf as [Hi _]. apply lookup_lt_Some in Hi.
  apply lookup_lt_is_Some. apply Nat.mod_upper_bound. lia.
Qed.

(** X16.  With distinct player ids the turn order is a cycle through
    all players in join order: from the player at index [i],
    [getNextPlayer] gives the player at index [i + 1], the first one after
    the last, [k] steps lead to index [(i + k) mod n], and as many steps as
    there are players lead back to the same player.  An id that nobody has
    is followed by the first player. *)
Theorem turn_order_is_a_cycle (players : list Player.t) i p k :
  NoDup (Player.id <$> players) → players !! i = Some p →
  getNextPlayer (Player.id p) players = players !! ((i + 1) `mod` length players) ∧
  passTurn k (Player.id p) players
    = Player.id <$> players !! ((i + k) `mod` length players) ∧
  passTurn (length players) (Player.id p) players = Some (Player.id p) ∧
  (∀ sid, list_find (hasId sid) players = None →
          getNextPlayer sid players = players !! 0).
Proof.
  intros Hnd Hi.
  assert (Hlen : 0 < length players) by (apply lookup_lt_Some in Hi; lia).
  assert (Hgen : ∀ k i p, players !! i = Some p →
            passTurn k (Player.id p) players
              = Player.id <$> players !! ((i + k) `mod` length players)).
  { clear i p Hi k. induction k as [|k IH]; intros i p Hi; simpl.
    - rewrite Nat.add_0_r, Nat.mod_small by (by eapply lookup_lt_Some). by rewrite Hi.
    - destruct (getNextPlayer_found players _ i p (list_find_by_id _ _ _ Hnd Hi))
        as [Hnext [next Hsome]].
      rewrite Hsome. rewrite Hnext in Hsome. rewrite (IH _ _ Hsome).
      do 2 f_equal. rewrite Nat.Div0.add_mod_idemp_l. f_equal. lia. }
  split_and!.
  - apply (getNextPlayer_found players _ i p (list_find_by_id _ _ _ Hnd Hi)).
  - by apply Hgen.
  - rewrite (Hgen _ _ _ Hi).
    replace (i + length players) with (i + 1 * length players) by lia.
    rewrite Nat.Div0.mod_add, Nat.mod_small by (by eapply lookup_lt_Some).
    by rewrite Hi.
  - intros sid Hnone. unfold getNextPlayer. by rewrite Hnone.
Qed.

Lemma turn_order_is_a_cycle_witness :
  NoDup (Player.id <$> Room.players dealtTable) ∧
  ∃ last, Room.players dealtTable !! 7 = Some last ∧
          Player.id <$> getNextPlayer (Player.id last) (Room.players dealtTable) = Some "s0".
Proof.
  assert (H1 : NoDup (Player.id <$> Room.players dealtTable))
    by (apply (bool_decide_unpack _); by vm_compute).
  split; [exact H1|].
  destruct (Room.players dealtTable !! 7) as [last|] eqn:H2; [|by vm_compute in H2].
  exists last. split; [reflexivity|].
  rewrite (proj1 (turn_order_is_a_cycle (Room.players dealtTable) 7 last 0 H1 H2)).
  vm_compute; reflexivity.
Defined.

(** ** declareSet on an array of captured sets *)

(** X17.  A declaration by the turn holder in a room whose
    [capturedSets] is an array.  If [checkWinCondition] names a result for
    the extended array, the game is finished with that result as winner and
    the turn stays with the declarer.  If not, the turn goes to the player
    after the declarer's first record, the first after the last, and status
    and winner stay.  Either way no player record changes: the cards of a
    declared set stay in the hands. *)
Theorem declareSet_finishes_or_passes sid rn s st (gameRooms : gmap string Room.t)
    room i declarer entries :
  gameRooms !! rn = Some room →
  list_find (hasId sid) (Room.players room) = Some (i, declarer) →
  Room.currentTurnPlayerId room = Some sid →
  Room.capturedSets room = CapArray entries →
  ∃ room' entry,
    declareSet sid rn s st gameRooms = (<[rn := room']> gameRooms, gameUpdate room') ∧
    Room.capturedSets room' = CapArray (entries ++ [entry]) ∧
    Room.players room' = Room.players room ∧
    match checkWinCondition (entries ++ [entry]) with
    | Some w =>
        Room.gameStatus room' = Some "finished" ∧ Room.winner room' = Some w ∧
        Room.currentTurnPlayerId room' = Some sid
    | None =>
        Room.gameStatus room' = Room.gameStatus room ∧
        Room.winner room' = Room.winner room ∧
        Room.currentTurnPlayerId room'
          = Player.id <$> Room.players room !! ((i + 1) `mod` length (Room.players room))
    end.
Proof.
  intros Hroom Hf Hturn Hcs. unfold declareSet. rewrite (withRoom_present _ _ _ _ _ Hroom).
  unfold declareSetBody. rewrite Hf, Hturn, Hcs.
  pose proof Hf as [_ Hid]%list_find_lookup. unfold hasId in Hid.
  rewrite bool_decide_eq_true_2 by congruence. simpl.
  destruct (checkWinCondition _) as [w|] eqn:Hwin.
  - eexists _, _. split; [reflexivity|]. split; [reflexivity|]. split; [reflexivity|].
    rewrite Hwin. by simpl.
  - rewrite Hid. destruct (getNextPlayer_found _ _ _ _ Hf) as [Hnext [next Hsome]].
    rewrite Hsome. eexists _, _.
    split; [reflexivity|]. split; [reflexivity|]. split; [reflexivity|].
    rewrite Hwin. simpl. split_and!; [done..|]. rewrite <- Hnext, Hsome. done.
Qed.

Lemma declareSet_finishes_or_passes_witness :
  duelRooms !! "d" = Some duelPlaying ∧
  list_find (hasId "a") (Room.players duelPlaying) = Some (0, ann) ∧
  Room.currentTurnPlayerId duelPlaying = Some "a" ∧
  Room.capturedSets duelPlaying = CapArray [] ∧
  ∃ room' entry,
    declareSet "a" "d" "hearts" "lower" duelRooms
      = (<["d" := room']> duelRooms, gameUpdate room') ∧
    Room.capturedSets room' = CapArray ([] ++ [entry]).
Proof.
  assert (H1 : duelRooms !! "d" = Some duelPlaying) by (vm_compute; reflexivity).
  assert (H2 : list_find (hasId "a") (Room.players duelPlaying) = Some (0, ann))
    by (vm_compute; reflexivity).
  assert (H3 : Room.currentTurnPlayerId duelPlaying = Some "a") by reflexivity.
  assert (H4 : Room.capturedSets duelPlaying = CapArray []) by reflexivity.
  split; [exact H1|]. split; [exact H2|]. split; [exact H3|]. split; [exact H4|].
  destruct (declareSet_finishes_or_passes "a" "d" "hearts" "lower" duelRooms
              duelPlaying 0 ann [] H1 H2 H3 H4) as (room' & entry & Hd & Hc & _).
  exists room', entry. split; [exact Hd|exact Hc].
Defined.

(** ** More on checkWinCondition *)

Lemma checkWinCondition_counts cs cs' :
  length (filter (capturedBy "red") cs) = length (filter (capturedBy "red") cs') →
  length (filter (capturedBy "blue") cs) = length (filter (capturedBy "blue") cs') →
  checkWinCondition cs = checkWinCondition cs'.
Proof. unfold checkWinCondition. by intros -> ->. Qed.

(** X18.  The result of [checkWinCondition] depends only on how many
    entries red and blue have: the order of the entries does not matter,
    and entries of any other team (unassigned, [null], 'A', 'B') can be
    dropped without changing it. *)
Theorem checkWinCondition_order_and_others cs cs' :
  cs ≡ₚ cs' →
  checkWinCondition cs = checkWinCondition cs' ∧
  checkWinCondition
    (filter (λ e, CapturedSet.team e = Some "red" ∨ CapturedSet.team e = Some "blue") cs)
    = checkWinCondition cs.
Proof.
  intros Hp. split.
  - apply checkWinCondition_counts; by rewrite Hp.
  - apply checkWinCondition_counts; rewrite list_filter_filter; f_equal;
      apply list_filter_iff; intros e; unfold capturedBy; intuition congruence.
Qed.

Lemma checkWinCondition_order_and_others_witness :
  threeRedOneBlue ≡ₚ captured "blue" "hearts" "upper" :: threeRed ∧
  checkWinCondition threeRedOneBlue
    = checkWinCondition (captured "blue" "hearts" "upper" :: threeRed).
Proof.
  assert (H : threeRedOneBlue ≡ₚ captured "blue" "hearts" "upper" :: threeRed)
    by (apply (bool_decide_unpack _); by vm_compute).
  split; [exact H|]. exact (proj1 (checkWinCondition_order_and_others _ _ H)).
Defined.

Lemma checkWinCondition_is_Some cs :
  is_Some (checkWinCondition cs) ↔
  3 ≤ length (filter (capturedBy "red") cs) ∨ 3 ≤ length (filter (capturedBy "blue") cs).
Proof.
  unfold checkWinCondition.
  generalize (length (filter (capturedBy "red") cs)) as red.
  generalize (length (filter (capturedBy "blue") cs)) as blue.
  intros blue red.
  destruct (Nat.leb_spec 3 red), (Nat.ltb_spec blue red),
           (Nat.leb_spec 3 blue), (Nat.ltb_spec red blue),
           (Nat.eqb_spec red blue); simpl;
    (split; [intros [w Hw]; try done; lia|intros Hor; try (by eexists); lia]).
Qed.

(** X19.  Once [checkWinCondition] names a result it names one for
    every longer array: further declarations can change the winner of a
    finished game (to the other team, or to a draw) but never bring back
    'no winner'. *)
Theorem checkWinCondition_stays_decided cs more :
  is_Some (checkWinCondition cs) → is_Some (checkWinCondition (cs ++ more)).
Proof.
  rewrite !checkWinCondition_is_Some, !filter_app, !length_app. lia.
Qed.

Lemma checkWinCondition_stays_decided_witness :
  checkWinCondition threeRedTwoBlue = Some "red" ∧
  checkWinCondition (threeRedTwoBlue ++ [captured "blue" "spades" "upper"]) = Some "draw" ∧
  is_Some (checkWinCondition (threeRedTwoBlue ++ [captured "blue" "spades" "upper"])).
Proof.
  assert (H : is_Some (checkWinCondition threeRedTwoBlue)) by (by exists "red").
  split; [vm_compute; reflexivity|]. split; [vm_compute; reflexivity|].
  exact (checkWinCondition_stays_decided threeRedTwoBlue
           [captured "blue" "spades" "upper"] H).
Defined.

(** ** The shuffle loop, step by step *)

Lemma swap_length i j deck : length (swap i j deck) = length deck.
Proof.
  unfold swap. destruct (deck !! j); [|done]. destruct (deck !! i); [|done].
  by rewrite !length_insert.
Qed.

Lemma swap_lookup_other i j k deck :
  k ≠ i → k ≠ j → swap i j deck !! k = deck !! k.
Proof.
  intros Hi Hj. unfold swap. destruct (deck !! j); [|done]. destruct (deck !! i); [|done].
  by rewrite !list_lookup_insert_ne.
Qed.

Lemma swap_lookup_i i j deck :
  i < length deck → j ≤ i → swap i j deck !! i = deck !! j.
Proof.
  intros Hi Hj. unfold swap.
  destruct (deck !! j) as [dj|] eqn:Hdj; [|apply lookup_ge_None in Hdj; lia].
  destruct (deck !! i) as [di|] eqn:Hdi; [|apply lookup_ge_None in Hdi; lia].
  destruct (decide (j = i)) as [->|Hne].
  - rewrite list_lookup_insert_eq by (by rewrite length_insert). congruence.
  - rewrite list_lookup_insert_ne, list_lookup_insert_eq by done. done.
Qed.

Lemma shuffleLoop_length random calls i deck :
  length (shuffleLoop random calls i deck) = length deck.
Proof.
  revert calls deck. induction i as [|i IH]; intros calls deck; simpl; [done|].
  by rewrite IH, swap_length.
Qed.

Lemma shuffleLoop_above random calls i deck k :
  i < k → shuffleLoop random calls i deck !! k = deck !! k.
Proof.
  revert calls deck. induction i as [|i IH]; intros calls deck Hk; simpl; [done|].
  rewrite IH by lia. apply swap_lookup_other; [lia|].
  pose proof (shuffle_index_in_range random calls (S i)) as H. simpl in H. lia.
Qed.

(** X20.  The shuffle loop is Fisher-Yates.  Run from index [i] on an
    array with more than [i] cards, it keeps the length, leaves every
    position above [i] alone, and puts at position [i] the card that was at
    the index it drew first, [floor(random() * (i + 1))], which is never
    above [i].  So the last card of a shuffled deck is the card of the
    ordered deck at the first index drawn. *)
Theorem shuffleLoop_places_drawn_card random calls i deck :
  i < length deck →
  floorTimes (random calls) (i + 1) ≤ i ∧
  length (shuffleLoop random calls i deck) = length deck ∧
  shuffleLoop random calls i deck !! i = deck !! floorTimes (random calls) (i + 1) ∧
  (∀ k, i < k → shuffleLoop random calls i deck !! k = deck !! k) ∧
  createAndShuffleDeck random !! 47 = orderedDeck !! floorTimes (random 0) 48.
Proof.
  intros Hi.
  assert (Hat : ∀ calls i deck, i < length deck →
            shuffleLoop random calls i deck !! i
              = deck !! floorTimes (random calls) (i + 1)).
  { clear. intros calls [|i] deck Hi; simpl.
    - pose proof (shuffle_index_in_range random calls 0) as H. simpl in H.
      by replace (floorTimes (random calls) 1) with 0 by lia.
    - rewrite shuffleLoop_above by lia.
      apply swap_lookup_i; [done|]. apply (shuffle_index_in_range random calls (S i)). }
  split_and!.
  - apply shuffle_index_in_range.
  - apply shuffleLoop_length.
  - by apply Hat.
  - intros k Hk. by apply shuffleLoop_above.
  - unfold createAndShuffleDeck. change (length orderedDeck - 1) with 47.
    rewrite (Hat 0 47 orderedDeck); [done|]. change (length orderedDeck) with 48. lia.
Qed.

Lemma shuffleLoop_places_drawn_card_witness :
  47 < length orderedDeck ∧
  shuffleLoop half 0 47 orderedDeck !! 47 = Some (mkCard "hearts" "8" "upper").
Proof.
  assert (H : 47 < length orderedDeck) by (change (length orderedDeck) with 48; lia).
  split; [exact H|].
  rewrite (proj1 (proj2 (proj2 (shuffleLoop_places_drawn_card half 0 47 orderedDeck H)))).
  vm_compute; reflexivity.
Defined.

(** ** Two requests in a row *)

(** X21.  After an accepted request the requester has passed the turn
    on: whatever the same socket requests next in that room, from whomever,
    it is answered NotYourTurn (or PlayerNotFound for an unknown target) and
    nothing changes. *)
Theorem requestCard_then_not_your_turn sid rn tid s r st
    (gameRooms gameRooms' : gmap string Room.t) room' tid2 s2 r2 st2 :
  requestCard sid rn tid s r st gameRooms = (gameRooms', gameUpdate room') →
  requestCard sid rn tid2 s2 r2 st2 gameRooms' = (gameRooms', error NotYourTurn) ∨
  requestCard sid rn tid2 s2 r2 st2 gameRooms' = (gameRooms', error PlayerNotFound).
Proof.
  intros (room & Hroom & Hbody & ->)%withRoom_gameUpdate.
  apply requestCardBody_Updated in Hbody
    as (ri & rq & ti & tg & Hr & Ht & _ & Hvalid & Hcase).
  apply isValidRequest_true in Hvalid as (Hids & _).
  apply list_find_lookup in Hr as [_ Hrid]. unfold hasId in Hrid.
  assert (Hturn : Room.currentTurnPlayerId room' = Some (Player.id tg))
    by (by destruct Hcase as [(k & card & _ & ->)|[_ ->]]).
  unfold requestCard, withRoom. rewrite lookup_insert_eq. unfold requestCardBody.
  destruct (list_find (hasId sid) (Room.players room')) as [[ri' rq']|] eqn:Hr'; [|by right].
  destruct (list_find (hasId tid2) (Room.players room')) as [[ti' tg']|]; [|by right].
  apply list_find_lookup in Hr' as [_ Hrid']. unfold hasId in Hrid'.
  rewrite Hturn, bool_decide_eq_false_2; [by left|]. congruence.
Qed.

Lemma requestCard_then_not_your_turn_witness :
  requestCard "a" "d" "b" "hearts" "3" "lower" duelRooms
    = ({[ "d" := duelAfterRequest ]}, gameUpdate duelAfterRequest) ∧
  requestCard "a" "d" "b" "clubs" "8" "upper" {[ "d" := duelAfterRequest ]}
    = ({[ "d" := duelAfterRequest ]}, error NotYourTurn).
Proof.
  assert (H : requestCard "a" "d" "b" "hearts" "3" "lower" duelRooms
              = ({[ "d" := duelAfterRequest ]}, gameUpdate duelAfterRequest))
    by (vm_compute; reflexivity).
  split; [exact H|].
  destruct (requestCard_then_not_your_turn _ _ _ _ _ _ _ _ _ "b" "clubs" "8" "upper" H)
    as [H'|H']; [exact H'|].
  exfalso. revert H'. vm_compute. discriminate.
Defined.

(** ** Fields no handler writes, the player count, the cards *)

Lemma body_sameSetup a body room room' :
  bodyOf a = Some body →
  body room = Updated room' ∨ body room = Threw room' →
  sameSetup room room'.
Proof.
  intros Hbody Hstep. destruct a; simplify_eq/=.
  - unfold joinRoomBody in Hstep.
    destruct (lengthAtLeast _ _); by destruct Hstep as [[= <-]|[=]].
  - unfold joinTeamBody in Hstep.
    destruct (list_find _ _) as [[i player]|]; by destruct Hstep as [[= <-]|[=]].
  - destruct Hstep as [Hup|Hthrew].
    + by apply startGameBody_Updated in Hup as (_ & _ & _ & first & _ & ->).
    + revert Hthrew. unfold startGameBody.
      generalize (createAndShuffleDeck random) as cards. intros cards.
      repeat (case_bool_decide; simpl; [|done]).
      destruct (dealHands _ _ !! 0); [done|]. by intros [= <-].
  - destruct Hstep as [Hup|Hthrew];
      [|by destruct (requestCardBody_not_Threw _ _ _ _ _ _ _ Hthrew)].
    by apply requestCardBody_Updated in Hup
      as (ri & rq & ti & tg & _ & _ & _ & _ & [(k & card & _ & ->)|[_ ->]]).
  - unfold declareSetBody in Hstep.
    destruct (list_find _ _) as [[i dp]|]; [|by destruct Hstep].
    case_bool_decide; simpl in Hstep; [|by destruct Hstep].
    destruct (Room.capturedSets room) as [A B|entries];
      [by destruct Hstep as [[=]|[= <-]]|].
    destruct (checkWinCondition _) as [w|]; [by destruct Hstep as [[= <-]|[=]]|].
    destruct (getNextPlayer _ _); by destruct Hstep as [[= <-]|[= <-]].
  - unfold claimTurnBody in Hstep.
    destruct (list_find _ _) as [[i player]|]; [|by destruct Hstep].
    destruct (truthy _); by destruct Hstep as [[= <-]|[=]].
Qed.

(** X22.  What [createRoom] writes into [name], [maxPlayers], [status],
    [teams], [currentTurn] and [deck] is never written again, and no handler
    writes [playerCount] or [adminId]: after any sequence of events a room
    has these fields as before.  In particular [status] stays 'waiting' in
    a started and in a finished game. *)
Theorem setup_fields_never_written actions (gameRooms : gmap string Room.t) n room :
  gameRooms !! n = Some room →
  ∃ room', serve actions gameRooms !! n = Some room' ∧ sameSetup room room'.
Proof.
  apply (serve_relation sameSetup).
  - intros r. by repeat split.
  - intros r1 r2 r3 (?&?&?&?&?&?&?&?) (?&?&?&?&?&?&?&?).
    repeat split; congruence.
  - apply body_sameSetup.
Qed.

Lemma setup_fields_never_written_witness :
  tableRooms !! "r1" = Some table ∧
  ∃ room', serve (ActStartGame half "s0" "r1" :: openingRequests) tableRooms !! "r1"
             = Some room' ∧
           Room.gameStatus room' = Some "playing" ∧ Room.status room' = "waiting".
Proof.
  assert (H : tableRooms !! "r1" = Some table) by (vm_compute; reflexivity).
  split; [exact H|].
  destruct (setup_fields_never_written
              (ActStartGame half "s0" "r1" :: openingRequests) tableRooms "r1" table H)
    as (room' & Hroom' & _ & _ & Hstatus & _).
  exists room'. split; [exact Hroom'|]. split; [|exact Hstatus].
  revert Hroom'. vm_compute. by intros [= <-].
Defined.

Lemma body_length a body room room' :
  bodyOf a = Some body →
  body room = Updated room' ∨ body room = Threw room' →
  length (Room.players room') = length (Room.players room) ∨
  (length (Room.players room') = S (length (Room.players room)) ∧
   lengthAtLeast (length (Room.players room)) (Room.playerCount room) = false).
Proof.
  intros Hbody Hstep. destruct a; simplify_eq/=.
  - right. unfold joinRoomBody in Hstep.
    destruct (lengthAtLeast _ _); destruct Hstep as [[= <-]|[=]].
    simpl. rewrite length_app. simpl. split; [lia|done].
  - left. unfold joinTeamBody in Hstep.
    destruct (list_find _ _) as [[i player]|]; destruct Hstep as [[= <-]|[=]].
    simpl. by rewrite length_insert.
  - left. destruct Hstep as [Hup|Hthrew].
    + apply startGameBody_Updated in Hup as (_ & _ & _ & first & _ & ->).
      simpl. by rewrite dealHands_length.
    + revert Hthrew. unfold startGameBody.
      generalize (createAndShuffleDeck random) as cards. intros cards.
      repeat (case_bool_decide; simpl; [|done]).
      destruct (dealHands _ _ !! 0); [done|]. intros [= <-].
      simpl. by rewrite dealHands_length.
  - left. destruct Hstep as [Hup|Hthrew];
      [|by destruct (requestCardBody_not_Threw _ _ _ _ _ _ _ Hthrew)].
    apply requestCardBody_Updated in Hup
      as (ri & rq & ti & tg & _ & _ & _ & _ & [(k & card & _ & ->)|[_ ->]]);
      simpl; [|done]. by rewrite !length_insert.
  - left. unfold declareSetBody in Hstep.
    destruct (list_find _ _) as [[i dp]|]; [|by destruct Hstep].
    case_bool_decide; simpl in Hstep; [|by destruct Hstep].
    destruct (Room.capturedSets room) as [A B|entries];
      [by destruct Hstep as [[=]|[= <-]]|].
    destruct (checkWinCondition _) as [w|]; [by destruct Hstep as [[= <-]|[=]]|].
    destruct (getNextPlayer _ _); by destruct Hstep as [[= <-]|[= <-]].
  - left. unfold claimTurnBody in Hstep.
    destruct (list_find _ _) as [[i player]|]; [|by destruct Hstep].
    destruct (truthy _); destruct Hstep as [[= <-]|[=]].
    simpl. by rewrite length_insert.
Qed.

(** X23.  In a room that has a [playerCount], the number of players
    never passes it: if every room is within its [playerCount], so is every
    room after any sequence of events.  Only [joinRoom] adds a player, one
    at a time, and only while the room is below its [playerCount]. *)
Theorem playerCount_is_respected actions (gameRooms : gmap string Room.t) :
  (∀ n room, gameRooms !! n = Some room → withinPlayerCount room) →
  ∀ n room, serve actions gameRooms !! n = Some room → withinPlayerCount room.
Proof.
  apply (serve_invariant withinPlayerCount); [done|].
  intros a body room room' Hbody Hroom Hstep c Hc.
  pose proof (body_sameSetup a body room room' Hbody Hstep) as (_&_&_&_&_&_&Hpc&_).
  rewrite Hpc in Hc. specialize (Hroom c Hc).
  destruct (body_length a body room room' Hbody Hstep) as [->|[-> Hfull]]; [done|].
  rewrite Hc in Hfull. simpl in Hfull. apply Nat.leb_gt in Hfull. lia.
Qed.

Lemma playerCount_is_respected_witness :
  (∀ n room, tableRooms !! n = Some room → withinPlayerCount room) ∧
  ∃ room, serve [ActJoinRoom "s8" "p8" "r1"; ActJoinRoom "s9" "p9" "r1"] tableRooms !! "r1"
            = Some room ∧
          withinPlayerCount room.
Proof.
  assert (H : ∀ n room, tableRooms !! n = Some room → withinPlayerCount room).
  { intros n room Hn. unfold tableRooms in Hn.
    apply lookup_singleton_Some in Hn as [_ <-]. intros c [= <-]. simpl. lia. }
  split; [exact H|].
  destruct (serve [ActJoinRoom "s8" "p8" "r1"; ActJoinRoom "s9" "p9" "r1"] tableRooms !! "r1")
    as [room|] eqn:Hroom; [|by vm_compute in Hroom].
  exists room. split; [reflexivity|].
  exact (playerCount_is_respected _ tableRooms H "r1" room Hroom).
Defined.

Lemma allHands_insert_same_hand room i p p' :
  Room.players room !! i = Some p → Player.hand p' = Player.hand p →
  concat (Player.hand <$> <[i := p']> (Room.players room)) = allHands room.
Proof.
  intros Hi Hh. unfold allHands. rewrite list_fmap_insert, Hh.
  by rewrite list_insert_id by (by rewrite list_lookup_fmap, Hi).
Qed.

Lemma body_allHands a body room room' :
  bodyOf a = Some body → ¬ isStartGame a →
  body room = Updated room' ∨ body room = Threw room' →
  allHands room' ≡ₚ allHands room.
Proof.
  intros Hbody Hno Hstep. destruct a; simplify_eq/=.
  - unfold joinRoomBody in Hstep.
    destruct (lengthAtLeast _ _); destruct Hstep as [[= <-]|[=]].
    unfold allHands; simpl. rewrite fmap_app, concat_app. simpl. by rewrite !app_nil_r.
  - unfold joinTeamBody in Hstep.
    destruct (list_find _ _) as [[i player]|] eqn:Hf; destruct Hstep as [[= <-]|[=]].
    apply list_find_lookup in Hf as [Hf _].
    unfold allHands at 1; simpl. by rewrite (allHands_insert_same_hand _ _ _ _ Hf).
  - by destruct Hno.
  - destruct Hstep as [Hup|Hthrew];
      [|by destruct (requestCardBody_not_Threw _ _ _ _ _ _ _ Hthrew)].
    by eapply requestCardBody_allHands.
  - unfold declareSetBody in Hstep.
    destruct (list_find _ _) as [[i dp]|]; [|by destruct Hstep].
    case_bool_decide; simpl in Hstep; [|by destruct Hstep].
    destruct (Room.capturedSets room) as [A B|entries];
      [by destruct Hstep as [[=]|[= <-]]|].
    destruct (checkWinCondition _) as [w|]; [by destruct Hstep as [[= <-]|[=]]|].
    destruct (getNextPlayer _ _); by destruct Hstep as [[= <-]|[= <-]].
  - unfold claimTurnBody in Hstep.
    destruct (list_find _ _) as [[i player]|] eqn:Hf; [|by destruct Hstep].
    destruct (truthy _); destruct Hstep as [[= <-]|[=]].
    apply list_find_lookup in Hf as [Hf _].
    unfold allHands at 1; simpl. by rewrite (allHands_insert_same_hand _ _ _ _ Hf).
Qed.

(** X24.  Cards enter the hands only at a deal.  Over any sequence of
    events without a startGame, the cards held in a room stay the same cards:
    joining adds an empty hand, choosing a team, claiming the turn and
    declaring a set move no card (a declared set stays in the hands), and a
    request only moves a card between two hands. *)
Theorem cards_change_only_at_a_deal actions (gameRooms : gmap string Room.t) n room :
  Forall (λ a, ¬ isStartGame a) actions →
  gameRooms !! n = Some room →
  ∃ room', serve actions gameRooms !! n = Some room' ∧ allHands room' ≡ₚ allHands room.
Proof.
  intros Hall. revert gameRooms room.
  induction Hall as [|a actions Ha _ IH]; intros gameRooms room Hn; [by exists room|].
  destruct (handle_lookup a gameRooms n room Hn)
    as (r1 & Hr1 & [->|(body & Hbody & Hs)]); unfold serve; simpl.
  - by apply IH.
  - destruct (IH _ _ Hr1) as (r2 & Hr2 & Hp). exists r2. split; [done|].
    rewrite Hp. by eapply body_allHands.
Qed.

Lemma cards_change_only_at_a_deal_witness :
  Forall (λ a, ¬ isStartGame a)
    [ActDeclareSet "a" "d" "hearts" "lower"; ActJoinRoom "c" "Cy" "d";
     ActRequestCard "b" "d" "a" "hearts" "ace" "lower"] ∧
  duelRooms !! "d" = Some duelPlaying ∧
  ∃ room',
    serve [ActDeclareSet "a" "d" "hearts" "lower"; ActJoinRoom "c" "Cy" "d";
           ActRequestCard "b" "d" "a" "hearts" "ace" "lower"] duelRooms !! "d"
      = Some room' ∧
    allHands room' ≡ₚ allHands duelPlaying.
Proof.
  assert (H1 : Forall (λ a, ¬ isStartGame a)
    [ActDeclareSet "a" "d" "hearts" "lower"; ActJoinRoom "c" "Cy" "d";
     ActRequestCard "b" "d" "a" "hearts" "ace" "lower"])
    by (repeat constructor; intros []).
  assert (H2 : duelRooms !! "d" = Some duelPlaying) by (vm_compute; reflexivity).
  split; [exact H1|]. split; [exact H2|].
  exact (cards_change_only_at_a_deal _ duelRooms "d" duelPlaying H1 H2).
Defined.

(** ** declareSet by the turn holder *)




